(** * financed: expenses, spending limits and the monthly spending summary

    A shallow embedding of the backend of the Finance Manager application
    (NestJS, in-memory repositories) and the properties of its
    specification, settled against the code.

    Layout: JavaScript values the code relies on (numbers, dates, arrays,
    promises that resolve or reject), the domain entities, the two in-memory
    repositories, the use cases, the controllers and the providers of
    [AppModule]; then the theorems. *)

From Stdlib Require Import Floats ZArith Lia.
From stdpp Require Import base option list strings.

(** ** JavaScript numbers

    A TypeScript [number] is an IEEE 754 binary64 value, which is what Rocq's
    primitive [float] is: [+], [-], [*], [/] round as JavaScript's do, and
    [NaN], [Infinity] and the two zeros are values. *)

Abbreviation number := float (only parsing).

Module Number.
(** [x === y] on numbers: [NaN] differs from itself, [+0 === -0]. *)
Definition strict_eq (x y : number) : bool := PrimFloat.eqb x y.

Definition isNaN (x : number) : bool := PrimFloat.is_nan x.

(** [x === Infinity || x === -Infinity]. *)
Definition isInfinite (x : number) : bool := PrimFloat.is_infinity x.

(** [Number.isFinite]. *)
Definition isFinite (x : number) : bool := negb (isNaN x) && negb (isInfinite x).

(** The number an integer literal denotes (nearest binary64 value). *)
Definition of_Z (z : Z) : number := SF2Prim (binary_normalize prec emax z 0 false).
End Number.

(** ** JavaScript dates

    A [Date] is seen through the two accessors the code calls, which read it
    in the host's local time zone: [getFullYear()] and [getMonth()], the
    latter an index from 0 (January) to 11 (December).  [new Date(s)] on a
    string that is no date is the Invalid Date, whose accessors return
    [NaN]. *)

Inductive MonthIndex : Set :=
  | January | February | March | April | May | June
  | July | August | September | October | November | December.

Inductive Date : Set :=
  | Invalid_Date
  | Local_Date (fullYear : Z) (monthIndex : MonthIndex) (dayOfMonth : Z).

Record DateString : Set := ISO { new_Date : Date }.

Module DateAPI.
Definition index (m : MonthIndex) : number :=
  match m with
  | January => 0 | February => 1 | March => 2 | April => 3
  | May => 4 | June => 5 | July => 6 | August => 7
  | September => 8 | October => 9 | November => 10 | December => 11
  end%float.

Definition getMonth (d : Date) : number :=
  match d with
  | Invalid_Date => nan
  | Local_Date _ m _ => index m
  end.

Definition getFullYear (d : Date) : number :=
  match d with
  | Invalid_Date => nan
  | Local_Date y _ _ => Number.of_Z y
  end.
End DateAPI.

(** ** Promises and thrown errors

    Every repository and use-case method is [async]: run on the state [S] of
    the object it belongs to, it either resolves with a value or rejects with
    the [Error] that was thrown, and in both cases leaves a state behind.  A
    rejection does not undo the writes made before the [throw]. *)

Inductive Exn : Set := Error (message : string).

Definition Async (S A : Type) : Type := S → (Exn + A) * S.

Definition resolve {S A} (a : A) : Async S A := λ s, (inr a, s).
Definition throw {S A} (e : Exn) : Async S A := λ s, (inl e, s).
Definition await {S A B} (m : Async S A) (k : A → Async S B) : Async S B :=
  λ s, match m s with
       | (inr a, s') => k a s'
       | (inl e, s') => (inl e, s')
       end.
Definition this {S} : Async S S := λ s, (inr s, s).
Definition assign {S} (s' : S) : Async S unit := λ _, (inr tt, s').

#[global] Instance Async_ret {S} : MRet (Async S) := λ _ a, resolve a.
#[global] Instance Async_bind {S} : MBind (Async S) := λ _ _ k m, await m k.

(** Running a method of a component [T] held inside a larger state [S]. *)
Definition within {S T A} (get : S → T) (set : T → S → S) (m : Async T A) : Async S A :=
  λ s, let '(r, t') := m (get s) in (r, set t' s).

(** The value a settled promise resolved with, if it did. *)
Definition resolved {S A} (r : (Exn + A) * S) : option A :=
  match r.1 with inr a => Some a | inl _ => None end.
Definition rejected {S A} (r : (Exn + A) * S) : option Exn :=
  match r.1 with inl e => Some e | inr _ => None end.
Definition state_after {S A} (r : (Exn + A) * S) : S := r.2.

(** ** Arrays

    [Array.prototype.filter], [find], [findIndex], [reduce] and [push] on an
    array held as a list in index order. *)

Module Array.
Section Methods.
Context {A : Type}.

Definition filter (f : A → bool) (l : list A) : list A := List.filter f l.

(** [find] returns the element or [undefined]; every caller applies
    [|| null] to it, and an object is never falsy, so the result is the
    element or [null]. *)
Definition find (f : A → bool) (l : list A) : option A := List.find f l.

(** [findIndex]: the first index whose element satisfies [f], or [-1]. *)
Fixpoint findIndex (f : A → bool) (l : list A) : Z :=
  match l with
  | [] => -1
  | x :: l' =>
      if f x then 0
      else let i := findIndex f l' in if (i =? -1)%Z then -1 else (1 + i)
  end%Z.

Definition reduce {B} (f : B → A → B) (init : B) (l : list A) : B :=
  fold_left f l init.

Definition push (x : A) (l : list A) : list A := l ++ [x].

(** [l[i]] for an index inside the array. *)
Definition at_index (l : list A) (i : Z) : option A := l !! Z.to_nat i.

(** [l[i] = x] for an index inside the array. *)
Definition set_index (l : list A) (i : Z) (x : A) : list A := <[Z.to_nat i := x]> l.
End Methods.
End Array.

(** [a ?? b]: [b] when [a] is [undefined] or [null]. *)
Definition nullish {A} (a : option A) (b : A) : A := default b a.
Infix "??" := nullish (at level 61, left associativity).

(** ** Domain entities *)

(** [domain/entities/expense.entity.ts] *)
Module Expense.
Record t : Type := new {
  id : string;
  amount : number;
  description : string;
  category : string;
  date : Date;
  userId : string
}.

(** [Omit<Expense, 'id'>], also the shape of [CreateExpenseDto]. *)
Record omit_id : Type := OmitId {
  o_amount : number;
  o_description : string;
  o_category : string;
  o_date : Date;
  o_userId : string
}.

(** [Partial<Expense>]: every field may be absent. *)
Record partial : Type := Partial {
  p_id : option string;
  p_amount : option number;
  p_description : option string;
  p_category : option string;
  p_date : option Date;
  p_userId : option string
}.
End Expense.
Abbreviation Expense := Expense.t.

(** [domain/entities/spending-limit.entity.ts] *)
Module SpendingLimit.
Record t : Type := new {
  id : string;
  userId : string;
  monthlyLimit : number;
  month : number;
  year : number
}.

Record omit_id : Type := OmitId {
  o_userId : string;
  o_monthlyLimit : number;
  o_month : number;
  o_year : number
}.

Record partial : Type := Partial {
  p_id : option string;
  p_userId : option string;
  p_monthlyLimit : option number;
  p_month : option number;
  p_year : option number
}.
End SpendingLimit.
Abbreviation SpendingLimit := SpendingLimit.t.

(** ** In-memory repositories

    [randomUUID()] is the host's: the identifier it returns is the first
    argument of [create]. *)

(** [infrastructure/repositories/in-memory-expense.repository.ts] *)
Module InMemoryExpenseRepository.
Record t : Type := Build { expenses : list Expense }.

(** [private expenses: Expense[] = []] *)
Definition new : t := Build [].

Definition findAll (userId : string) : Async t (list Expense) :=
  self ← this;
  mret (Array.filter (λ expense, String.eqb (Expense.userId expense) userId)
          (expenses self)).

Definition findById (id : string) : Async t (option Expense) :=
  self ← this;
  mret (Array.find (λ expense, String.eqb (Expense.id expense) id) (expenses self)).

(** The callback of [findByMonth]. *)
Definition in_month (userId : string) (month year : number) (expense : Expense) : bool :=
  String.eqb (Expense.userId expense) userId
  && Number.strict_eq (DateAPI.getMonth (Expense.date expense) + 1)%float month
  && Number.strict_eq (DateAPI.getFullYear (Expense.date expense)) year.

Definition findByMonth (userId : string) (month year : number) : Async t (list Expense) :=
  self ← this;
  mret (Array.filter (in_month userId month year) (expenses self)).

Definition create (uuid : string) (expense : Expense.omit_id) : Async t Expense :=
  self ← this;
  let newExpense :=
    Expense.new uuid
      (Expense.o_amount expense)
      (Expense.o_description expense)
      (Expense.o_category expense)
      (Expense.o_date expense)
      (Expense.o_userId expense) in
  _ ← assign (Build (Array.push newExpense (expenses self)));
  mret newExpense.

(** [this.expenses[index]] is read only where a field of the partial is
    absent; the index [findIndex] returned is inside the array, so the read
    finds an element (reading a field of [undefined] would throw). *)
Definition update (id : string) (expense : Expense.partial) : Async t Expense :=
  self ← this;
  let index := Array.findIndex (λ e, String.eqb (Expense.id e) id) (expenses self) in
  if (index =? -1)%Z then throw (Error "Expense not found")
  else
    match Array.at_index (expenses self) index with
    | None => throw (Error "TypeError: Cannot read properties of undefined")
    | Some current =>
        let updated :=
          Expense.new id
            (Expense.p_amount expense ?? Expense.amount current)
            (Expense.p_description expense ?? Expense.description current)
            (Expense.p_category expense ?? Expense.category current)
            (Expense.p_date expense ?? Expense.date current)
            (Expense.p_userId expense ?? Expense.userId current) in
        _ ← assign (Build (Array.set_index (expenses self) index updated));
        mret updated
    end.

Definition delete (id : string) : Async t unit :=
  self ← this;
  assign (Build (Array.filter (λ expense, negb (String.eqb (Expense.id expense) id))
                   (expenses self))).
End InMemoryExpenseRepository.

(** [infrastructure/repositories/in-memory-spending-limit.repository.ts] *)
Module InMemorySpendingLimitRepository.
Record t : Type := Build { limits : list SpendingLimit }.

(** [private limits: SpendingLimit[] = []] *)
Definition new : t := Build [].

(** The callback of [findByUserAndMonth]. *)
Definition for_key (userId : string) (month year : number) (limit : SpendingLimit) : bool :=
  String.eqb (SpendingLimit.userId limit) userId
  && Number.strict_eq (SpendingLimit.month limit) month
  && Number.strict_eq (SpendingLimit.year limit) year.

Definition findByUserAndMonth (userId : string) (month year : number)
  : Async t (option SpendingLimit) :=
  self ← this;
  mret (Array.find (for_key userId month year) (limits self)).

Definition create (uuid : string) (limit : SpendingLimit.omit_id) : Async t SpendingLimit :=
  self ← this;
  let newLimit :=
    SpendingLimit.new uuid
      (SpendingLimit.o_userId limit)
      (SpendingLimit.o_monthlyLimit limit)
      (SpendingLimit.o_month limit)
      (SpendingLimit.o_year limit) in
  _ ← assign (Build (Array.push newLimit (limits self)));
  mret newLimit.

Definition update (id : string) (limit : SpendingLimit.partial) : Async t SpendingLimit :=
  self ← this;
  let index := Array.findIndex (λ l, String.eqb (SpendingLimit.id l) id) (limits self) in
  if (index =? -1)%Z then throw (Error "Spending limit not found")
  else
    match Array.at_index (limits self) index with
    | None => throw (Error "TypeError: Cannot read properties of undefined")
    | Some current =>
        let updated :=
          SpendingLimit.new id
            (SpendingLimit.p_userId limit ?? SpendingLimit.userId current)
            (SpendingLimit.p_monthlyLimit limit ?? SpendingLimit.monthlyLimit current)
            (SpendingLimit.p_month limit ?? SpendingLimit.month current)
            (SpendingLimit.p_year limit ?? SpendingLimit.year current) in
        _ ← assign (Build (Array.set_index (limits self) index updated));
        mret updated
    end.

Definition delete (id : string) : Async t unit :=
  self ← this;
  assign (Build (Array.filter (λ limit, negb (String.eqb (SpendingLimit.id limit) id))
                   (limits self))).
End InMemorySpendingLimitRepository.

(** ** The providers of [AppModule]

    [app.module.ts] lists three repository providers, and Nest builds one
    instance for each provider token:
    - [{ provide: EXPENSE_REPOSITORY, useClass: InMemoryExpenseRepository }],
    - [{ provide: SPENDING_LIMIT_REPOSITORY, useClass: InMemorySpendingLimitRepository }],
    - [InMemorySpendingLimitRepository], the class as its own token.
    The last two are two objects of the same class, each with its own
    [limits] array. *)
Module AppModule.
Record t : Type := Build {
  EXPENSE_REPOSITORY : InMemoryExpenseRepository.t;
  SPENDING_LIMIT_REPOSITORY : InMemorySpendingLimitRepository.t;
  InMemorySpendingLimitRepository_class : InMemorySpendingLimitRepository.t
}.

(** The application after [app.init()]. *)
Definition init : t :=
  Build InMemoryExpenseRepository.new
        InMemorySpendingLimitRepository.new
        InMemorySpendingLimitRepository.new.

(** [@Inject(EXPENSE_REPOSITORY)] *)
Definition inject_EXPENSE_REPOSITORY {A} : Async InMemoryExpenseRepository.t A → Async t A :=
  within EXPENSE_REPOSITORY
    (λ r s, Build r (SPENDING_LIMIT_REPOSITORY s) (InMemorySpendingLimitRepository_class s)).

(** [@Inject(SPENDING_LIMIT_REPOSITORY)] *)
Definition inject_SPENDING_LIMIT_REPOSITORY {A}
  : Async InMemorySpendingLimitRepository.t A → Async t A :=
  within SPENDING_LIMIT_REPOSITORY
    (λ r s, Build (EXPENSE_REPOSITORY s) r (InMemorySpendingLimitRepository_class s)).

(** A constructor parameter of type [InMemorySpendingLimitRepository],
    resolved by class. *)
Definition inject_InMemorySpendingLimitRepository {A}
  : Async InMemorySpendingLimitRepository.t A → Async t A :=
  within InMemorySpendingLimitRepository_class
    (λ r s, Build (EXPENSE_REPOSITORY s) (SPENDING_LIMIT_REPOSITORY s) r).
End AppModule.

(** ** Use cases *)

(** [application/use-cases/create-expense.use-case.ts] *)
Module CreateExpenseUseCase.
Definition execute (uuid : string) (dto : Expense.omit_id) : Async AppModule.t Expense :=
  AppModule.inject_EXPENSE_REPOSITORY (InMemoryExpenseRepository.create uuid dto).
End CreateExpenseUseCase.

(** [application/use-cases/get-monthly-expenses.use-case.ts] *)
Module GetMonthlyExpensesUseCase.
Definition execute (userId : string) (month year : number)
  : Async AppModule.t (list Expense) :=
  AppModule.inject_EXPENSE_REPOSITORY
    (InMemoryExpenseRepository.findByMonth userId month year).
End GetMonthlyExpensesUseCase.

(** [application/use-cases/get-spending-summary.use-case.ts] *)
Record SpendingSummary : Type := Summary {
  totalSpent : number;
  spendingLimit : option number;
  remainingBudget : option number;
  percentageUsed : option number
}.

Module GetSpendingSummaryUseCase.
(** [expenses.reduce((sum, expense) => sum + expense.amount, 0)] *)
Definition total (expenses : list Expense) : number :=
  Array.reduce (λ sum expense, sum + Expense.amount expense)%float 0%float expenses.

Definition execute (userId : string) (month year : number)
  : Async AppModule.t SpendingSummary :=
  expenses ← AppModule.inject_EXPENSE_REPOSITORY
               (InMemoryExpenseRepository.findByMonth userId month year);
  let totalSpent := total expenses in
  limit ← AppModule.inject_SPENDING_LIMIT_REPOSITORY
            (InMemorySpendingLimitRepository.findByUserAndMonth userId month year);
  match limit with
  | None => mret (Summary totalSpent None None None)
  | Some limit =>
      let remainingBudget := (SpendingLimit.monthlyLimit limit - totalSpent)%float in
      let percentageUsed := (totalSpent / SpendingLimit.monthlyLimit limit * 100)%float in
      mret (Summary totalSpent
              (Some (SpendingLimit.monthlyLimit limit))
              (Some remainingBudget)
              (Some percentageUsed))
  end.
End GetSpendingSummaryUseCase.

(** ** HTTP adapters

    A handler's result becomes the response body; a handler that rejects with
    a plain [Error] yields status 500.  The [month] and [year] of a query
    reach the handlers as numbers, through [ParseIntPipe]; a query the pipe
    refuses is answered 400 before any handler runs and is no [Request]
    here. *)

(** [infrastructure/adapters/http/expense.controller.ts] *)
Module ExpenseController.
Record body : Type := Body {
  amount : number;
  description : string;
  category : string;
  date : DateString;
  userId : string
}.

(** [{ ...createExpenseDto, date: new Date(createExpenseDto.date) }] *)
Definition create (uuid : string) (createExpenseDto : body) : Async AppModule.t Expense :=
  CreateExpenseUseCase.execute uuid
    (Expense.OmitId
       (amount createExpenseDto)
       (description createExpenseDto)
       (category createExpenseDto)
       (new_Date (date createExpenseDto))
       (userId createExpenseDto)).

Definition getMonthly (userId : string) (month year : number)
  : Async AppModule.t (list Expense) :=
  GetMonthlyExpensesUseCase.execute userId month year.

Definition getSummary (userId : string) (month year : number)
  : Async AppModule.t SpendingSummary :=
  GetSpendingSummaryUseCase.execute userId month year.
End ExpenseController.

(** [infrastructure/adapters/http/spending-limit.controller.ts]: the
    constructor takes [@Inject(SPENDING_LIMIT_REPOSITORY)
    spendingLimitRepository: ISpendingLimitRepository]. *)
Module SpendingLimitController.
Definition create (uuid : string) (createLimitDto : SpendingLimit.omit_id)
  : Async AppModule.t SpendingLimit :=
  AppModule.inject_SPENDING_LIMIT_REPOSITORY
    (InMemorySpendingLimitRepository.create uuid createLimitDto).
End SpendingLimitController.

(** The second version of [SpendingLimitController] in the sources (it
    imports [InMemorySpendingLimitRepository] from [../../repositories]): the
    constructor takes [spendingLimitRepository:
    InMemorySpendingLimitRepository], which Nest resolves by class. *)
Module SpendingLimitController_by_class.
Definition create (uuid : string) (createLimitDto : SpendingLimit.omit_id)
  : Async AppModule.t SpendingLimit :=
  AppModule.inject_InMemorySpendingLimitRepository
    (InMemorySpendingLimitRepository.create uuid createLimitDto).
End SpendingLimitController_by_class.

Module Http.
(** The [controllers] of [AppModule] are [ExpenseController] and
    [SpendingLimitController]; the latter in one of its two versions. *)
Inductive Controllers : Set :=
  | limits_by_token   (* SpendingLimitController *)
  | limits_by_class.  (* SpendingLimitController_by_class *)

Inductive Request : Type :=
  | POST_expenses (uuid : string) (body : ExpenseController.body)
  | GET_expenses (userId : string) (month year : number)
  | GET_expenses_summary (userId : string) (month year : number)
  | POST_spending_limits (uuid : string) (body : SpendingLimit.omit_id).

Inductive Json : Type :=
  | expense_json (e : Expense)
  | expenses_json (l : list Expense)
  | summary_json (s : SpendingSummary)
  | limit_json (l : SpendingLimit).

Record Response : Type := Reply { status : Z; payload : option Json }.

Definition respond {A} (status : Z) (json : A → Json) (handler : Async AppModule.t A)
  : AppModule.t → Response * AppModule.t :=
  λ app, match handler app with
         | (inr a, app') => (Reply status (Some (json a)), app')
         | (inl _, app') => (Reply 500 None, app')
         end.

Definition handle (c : Controllers) (req : Request) : AppModule.t → Response * AppModule.t :=
  match req with
  | POST_expenses uuid body =>
      respond 201 expense_json (ExpenseController.create uuid body)
  | GET_expenses userId month year =>
      respond 200 expenses_json (ExpenseController.getMonthly userId month year)
  | GET_expenses_summary userId month year =>
      respond 200 summary_json (ExpenseController.getSummary userId month year)
  | POST_spending_limits uuid body =>
      respond 201 limit_json
        match c with
        | limits_by_token => SpendingLimitController.create uuid body
        | limits_by_class => SpendingLimitController_by_class.create uuid body
        end
  end.

(** The application after serving [reqs] one after the other. *)
Definition serve (c : Controllers) (reqs : list Request) (app : AppModule.t) : AppModule.t :=
  fold_left (λ app req, (handle c req app).2) reqs app.
End Http.

(** ** Histories of the expense store

    The states of the store reached from the empty one by calls of [create]
    and [delete]. *)
Module History.
Inductive Call : Type :=
  | Create (uuid : string) (expense : Expense.omit_id)
  | Delete (id : string).

Definition call (c : Call) (s : InMemoryExpenseRepository.t) : InMemoryExpenseRepository.t :=
  match c with
  | Create uuid expense => state_after (InMemoryExpenseRepository.create uuid expense s)
  | Delete id => state_after (InMemoryExpenseRepository.delete id s)
  end.

Definition run (calls : list Call) (s : InMemoryExpenseRepository.t) : InMemoryExpenseRepository.t :=
  fold_left (λ s c, call c s) calls s.

Definition reach (calls : list Call) : InMemoryExpenseRepository.t :=
  run calls InMemoryExpenseRepository.new.
End History.

(** ** The specification's vocabulary

    What the specification's sentences speak of, defined from its words and
    independently of the code above. *)
Module Spec.
(** The sum of the amounts of a sequence of expenses, accumulated in sequence
    order: 0 for the empty sequence, and the sum of a sequence extended by
    one expense is the sum of the sequence plus that expense's amount. *)
Fixpoint sum_backwards (amounts : list number) : number :=
  match amounts with
  | [] => 0
  | a :: earlier => sum_backwards earlier + a
  end%float.

Definition sum_of_amounts (expenses : list Expense) : number :=
  sum_backwards (rev (map Expense.amount expenses)).

(** The 1-indexed number of a calendar month. *)
Definition month_number (m : MonthIndex) : Z :=
  match m with
  | January => 1 | February => 2 | March => 3 | April => 4
  | May => 5 | June => 6 | July => 7 | August => 8
  | September => 9 | October => 10 | November => 11 | December => 12
  end.

(** Two numbers are equal (as numbers: the two zeros are, [NaN] is equal to
    nothing). *)
Definition same_number (x y : number) : Prop := Number.strict_eq x y = true.

(** The expense belongs to [userId] and its date falls in calendar month
    [month] (1-indexed) of [year]. *)
Definition in_calendar_month (userId : string) (month year : number) (e : Expense) : Prop :=
  Expense.userId e = userId ∧
  ∃ y m d, Expense.date e = Local_Date y m d
           ∧ same_number (Number.of_Z (month_number m)) month
           ∧ same_number (Number.of_Z y) year.

(** [month] is inside the range 1 to 12. *)
Definition month_in_range (month : number) : Prop :=
  (1 <=? month)%float = true ∧ (month <=? 12)%float = true.

(** The limit is one for the key [(userId, month, year)]. *)
Definition limit_for (userId : string) (month year : number) (l : SpendingLimit) : Prop :=
  SpendingLimit.userId l = userId
  ∧ same_number (SpendingLimit.month l) month
  ∧ same_number (SpendingLimit.year l) year.

(** A call [Delete id] occurs among [calls]. *)
Definition deleted_by (calls : list History.Call) (id : string) : bool :=
  existsb (λ c, match c with
                | History.Delete id' => String.eqb id' id
                | History.Create _ _ => false
                end) calls.

(** The stored expenses after [calls]: each expense inserted by a [Create]
    that no later [Delete] names, in insertion order. *)
Fixpoint stored (calls : list History.Call) : list Expense :=
  match calls with
  | [] => []
  | History.Create uuid x :: later =>
      let e := Expense.new uuid (Expense.o_amount x) (Expense.o_description x)
                 (Expense.o_category x) (Expense.o_date x) (Expense.o_userId x) in
      (if deleted_by later uuid then [] else [e]) ++ stored later
  | History.Delete _ :: later => stored later
  end.

(** A field after an update that may name it: the named value, or else the
    value it had. *)
Definition field_after {A} (named : option A) (before after : A) : Prop :=
  match named with
  | Some v => after = v
  | None => after = before
  end.

(** [updated] is [current] with the fields named in [partial] replaced. *)
Definition updated_by (partial : Expense.partial) (current updated : Expense) : Prop :=
  Expense.id updated = Expense.id current
  ∧ field_after (Expense.p_amount partial) (Expense.amount current) (Expense.amount updated)
  ∧ field_after (Expense.p_description partial)
      (Expense.description current) (Expense.description updated)
  ∧ field_after (Expense.p_category partial) (Expense.category current) (Expense.category updated)
  ∧ field_after (Expense.p_date partial) (Expense.date current) (Expense.date updated)
  ∧ field_after (Expense.p_userId partial) (Expense.userId current) (Expense.userId updated).
End Spec.

(** ** The end-to-end scenario of [features/expense-tracking.feature]

    "Get spending summary": a limit of 1000 for January 2025, two expenses
    of 300 on 10 and 15 January 2025, then the summary for January 2025. *)
Module Scenario.
Definition user : string := "user-123".

Definition limit_request : Http.Request :=
  Http.POST_spending_limits "limit-1" (SpendingLimit.OmitId user 1000 1 2025).

Definition expense_requests : list Http.Request :=
  [ Http.POST_expenses "expense-a"
      (ExpenseController.Body 300 "Expense A" "Food" (ISO (Local_Date 2025 January 10)) user);
    Http.POST_expenses "expense-b"
      (ExpenseController.Body 300 "Expense B" "Transport"
         (ISO (Local_Date 2025 January 15)) user) ].

Definition summary_request : Http.Request :=
  Http.GET_expenses_summary user 1 2025.

(** The response to the summary request after the limit and the expenses
    were posted to a fresh application. *)
Definition summary_response (c : Http.Controllers) : Http.Response :=
  (Http.handle c summary_request
     (Http.serve c (limit_request :: expense_requests) AppModule.init)).1.

(** The application once the limit and the expenses were posted. *)
Definition app (c : Http.Controllers) : AppModule.t :=
  Http.serve c (limit_request :: expense_requests) AppModule.init.

Definition expense_a : Expense :=
  Expense.new "expense-a" 300 "Expense A" "Food" (Local_Date 2025 January 10) user.
Definition expense_b : Expense :=
  Expense.new "expense-b" 300 "Expense B" "Transport" (Local_Date 2025 January 15) user.
Definition limit : SpendingLimit := SpendingLimit.new "limit-1" user 1000 1 2025.

(** The same month with a limit of 0. *)
Definition zero_limit : SpendingLimit := SpendingLimit.new "limit-0" user 0 1 2025.
Definition app_zero_limit : AppModule.t :=
  AppModule.Build
    (InMemoryExpenseRepository.Build [expense_a; expense_b])
    (InMemorySpendingLimitRepository.Build [zero_limit])
    InMemorySpendingLimitRepository.new.

(** February 2025, for which no limit was posted. *)
Definition expense_c : Expense :=
  Expense.new "expense-c" 42 "Expense C" "Food" (Local_Date 2025 February 3) user.
Definition app_february : AppModule.t :=
  AppModule.Build
    (InMemoryExpenseRepository.Build [expense_a; expense_c])
    (InMemorySpendingLimitRepository.Build [limit])
    InMemorySpendingLimitRepository.new.
End Scenario.

(** ** Sequences of read handler calls

    Calls of the two read handlers of [ExpenseController], as they are made
    for the GET queries whose [month] and [year] [ParseIntPipe] let through. *)
Module Reads.
Inductive Call : Type :=
  | getMonthly (userId : string) (month year : number)
  | getSummary (userId : string) (month year : number).

Inductive Answer : Type :=
  | listed (expenses : list Expense)
  | summed (summary : SpendingSummary).

Definition call (c : Call) : Async AppModule.t Answer :=
  match c with
  | getMonthly userId month year =>
      expenses ← ExpenseController.getMonthly userId month year; mret (listed expenses)
  | getSummary userId month year =>
      summary ← ExpenseController.getSummary userId month year; mret (summed summary)
  end.

(** The calls awaited one after the other. *)
Fixpoint run (calls : list Call) : Async AppModule.t (list Answer) :=
  match calls with
  | [] => mret []
  | c :: later =>
      answer ← call c;
      answers ← run later;
      mret (answer :: answers)
  end.
End Reads.

(** ** Sessions on the expense store

    Calls of [create], [update] and [delete] in any order; an [update] that
    rejects leaves the caller with the store as the call left it. *)
Module Session.
Inductive Call : Type :=
  | Create (uuid : string) (expense : Expense.omit_id)
  | Update (id : string) (partial : Expense.partial)
  | Delete (id : string).

Definition call (c : Call) (s : InMemoryExpenseRepository.t) : InMemoryExpenseRepository.t :=
  match c with
  | Create uuid expense => state_after (InMemoryExpenseRepository.create uuid expense s)
  | Update id partial => state_after (InMemoryExpenseRepository.update id partial s)
  | Delete id => state_after (InMemoryExpenseRepository.delete id s)
  end.

Definition run (calls : list Call) (s : InMemoryExpenseRepository.t) : InMemoryExpenseRepository.t :=
  fold_left (λ s c, call c s) calls s.

(** The ids of the stored expenses, in store order. *)
Definition ids (s : InMemoryExpenseRepository.t) : list string :=
  map Expense.id (InMemoryExpenseRepository.expenses s).

(** Every [create] of the session was handed an identifier that no stored
    expense had at that moment (what [randomUUID()] is relied on for). *)
Fixpoint fresh_uuids (calls : list Call) (s : InMemoryExpenseRepository.t) : Prop :=
  match calls with
  | [] => True
  | c :: later =>
      match c with
      | Create uuid _ => uuid ∉ ids s
      | _ => True
      end
      ∧ fresh_uuids later (call c s)
  end.
End Session.

(** * Properties *)

(** Unfolding the promise plumbing of a method run on a given state. *)
Ltac settle :=
  unfold GetSpendingSummaryUseCase.execute, GetMonthlyExpensesUseCase.execute,
    CreateExpenseUseCase.execute,
    InMemoryExpenseRepository.findAll, InMemoryExpenseRepository.findById,
    InMemoryExpenseRepository.findByMonth, InMemoryExpenseRepository.create,
    InMemoryExpenseRepository.update, InMemoryExpenseRepository.delete,
    InMemorySpendingLimitRepository.findByUserAndMonth,
    InMemorySpendingLimitRepository.create, InMemorySpendingLimitRepository.update,
    InMemorySpendingLimitRepository.delete,
    AppModule.inject_EXPENSE_REPOSITORY, AppModule.inject_SPENDING_LIMIT_REPOSITORY,
    AppModule.inject_InMemorySpendingLimitRepository, within,
    mbind, mret, Async_bind, Async_ret, await, resolve, throw, this, assign,
    resolved, rejected, state_after;
  cbn.

(** ** Numbers *)

Section NumberFacts.
Local Open Scope float_scope.

Lemma float_of_spec (x : float) (sf : spec_float) : Prim2SF x = sf → x = SF2Prim sf.
Proof. intros <-. symmetry. apply SF2Prim_Prim2SF. Qed.

(** [x === k] for a finite non-zero [k] holds for [k] alone. *)
Lemma strict_eq_finite (k x : float) s m e :
  Prim2SF k = S754_finite s m e → Number.strict_eq k x = true → x = k.
Proof.
  intros Hk. unfold Number.strict_eq. rewrite FloatAxioms.eqb_spec, Hk.
  unfold SFeqb, SFcompare. intros H.
  apply Prim2SF_inj. rewrite Hk.
  destruct (Prim2SF x) as [s'|s'| |s' m' e'].
  1-3: by repeat case_match.
  assert (s = s' ∧ e = e' ∧ m = m') as (-> & -> & ->); [|done].
  destruct s, s'; try discriminate;
    destruct (Z.compare_spec e e'); try discriminate;
    rewrite Pos.compare_cont_spec in H; cbn in H;
    destruct (Pos.compare_spec m m'); by try discriminate.
Qed.

(** [x === 0] holds for the two zeros alone. *)
Lemma strict_eq_zero (x : float) :
  Number.strict_eq x 0 = true → x = 0 ∨ x = -0.
Proof.
  unfold Number.strict_eq. rewrite FloatAxioms.eqb_spec.
  destruct (Prim2SF x) as [s|s| |s m e] eqn:E; simpl;
    try (destruct s; discriminate); try discriminate.
  intros _. apply float_of_spec in E. destruct s; [right|left]; exact E.
Qed.

(** Dividing by a zero gives [NaN] or an infinity. *)
Lemma div_by_zero (t z : float) :
  z = 0 ∨ z = -0 → t / z = nan ∨ t / z = infinity ∨ t / z = neg_infinity.
Proof.
  intros Hz.
  assert (∃ sz, Prim2SF z = S754_zero sz) as [sz Ez]
    by (destruct Hz as [->| ->]; [exists false | exists true]; reflexivity).
  pose proof (div_spec t z) as H. rewrite Ez in H. unfold SF64div, SFdiv in H.
  destruct (Prim2SF t) as [s|s| |s m e]; apply float_of_spec in H; rewrite H.
  - left. reflexivity.
  - destruct s, sz; simpl; auto.
  - left. reflexivity.
  - destruct s, sz; simpl; auto.
Qed.

Lemma percentage_of_zero_limit (t z : float) :
  Number.strict_eq z 0 = true →
  Number.isNaN (t / z * 100) = true ∨ Number.isInfinite (t / z * 100) = true.
Proof.
  intros Hz. apply strict_eq_zero in Hz.
  destruct (div_by_zero t z Hz) as [-> | [-> | ->]]; [left | right | right]; reflexivity.
Qed.
End NumberFacts.

(** Subtraction: [l - t] is negative whenever [l < t].  The difference of
    two distinct binary64 numbers never rounds to a zero. *)
Section Subtraction.
Local Open Scope Z_scope.

Lemma digits2_bounds (m : positive) :
  2 ^ (Z.pos (digits2_pos m) - 1) <= Z.pos m < 2 ^ Z.pos (digits2_pos m).
Proof.
  induction m as [m IH|m IH|]; cbn [digits2_pos]; [| |simpl; lia].
  all: rewrite Pos2Z.inj_succ;
    replace (Z.succ (Z.pos (digits2_pos m)) - 1) with (Z.pos (digits2_pos m)) by lia;
    rewrite Z.pow_succ_r by lia;
    assert (2 ^ Z.pos (digits2_pos m) = 2 * 2 ^ (Z.pos (digits2_pos m) - 1))
      by (rewrite <- Z.pow_succ_r by lia; f_equal; lia);
    lia.
Qed.

Lemma shr_1_m (mrs : shr_record) :
  0 <= shr_m mrs → shr_m (shr_1 mrs) = shr_m mrs / 2.
Proof.
  rewrite <- Z.div2_div.
  destruct mrs as [[|[p|p|]|p] r s]; simpl; intros; try lia; reflexivity.
Qed.

Lemma iter_shr_1_m (p : positive) (mrs : shr_record) :
  0 <= shr_m mrs → shr_m (SpecFloat.iter_pos shr_1 p mrs) = shr_m mrs / 2 ^ Z.pos p.
Proof.
  revert mrs. induction p as [p IH|p IH|]; intros mrs Hm; cbn [SpecFloat.iter_pos].
  - assert (0 <= shr_m (shr_1 mrs)) as H1 by (rewrite shr_1_m by done; apply Z.div_pos; lia).
    assert (0 <= shr_m (SpecFloat.iter_pos shr_1 p (shr_1 mrs))) as H2
      by (rewrite IH by done; apply Z.div_pos; [done|apply Z.pow_pos_nonneg; lia]).
    rewrite IH, IH, shr_1_m by done.
    rewrite !Z.div_div by (try apply Z.pow_pos_nonneg; lia).
    f_equal. transitivity (2 ^ (1 + Z.pos p + Z.pos p)); [|f_equal; lia].
    rewrite !Z.pow_add_r by lia. lia.
  - assert (0 <= shr_m (SpecFloat.iter_pos shr_1 p mrs)) as H2
      by (rewrite IH by done; apply Z.div_pos; [done|apply Z.pow_pos_nonneg; lia]).
    rewrite IH, IH by done.
    rewrite !Z.div_div by (try apply Z.pow_pos_nonneg; lia).
    f_equal. transitivity (2 ^ (Z.pos p + Z.pos p)); [|f_equal; lia].
    rewrite !Z.pow_add_r by lia. lia.
  - rewrite shr_1_m by done. reflexivity.
Qed.

(** Shifting a positive mantissa down to its format exponent keeps it positive. *)
Lemma shr_fexp_positive (m e : Z) :
  0 < m → emin <= e →
  0 < shr_m (shr_fexp prec emax m e loc_Exact).1
  ∧ emin <= (shr_fexp prec emax m e loc_Exact).2.
Proof.
  intros Hm He. destruct m as [|p|p]; try lia.
  unfold shr_fexp, shr. cbn [Zdigits2 shr_record_of_loc].
  destruct (fexp prec emax (Z.pos (digits2_pos p) + e) - e) as [|n|n] eqn:En; cbn [fst snd shr_m];
    try (split; lia).
  rewrite iter_shr_1_m by (cbn; lia). cbn [shr_m].
  pose proof (digits2_bounds p) as [Hlo _].
  unfold fexp in En. change prec with 53 in *.
  split; [|lia].
  apply Z.div_str_pos. split; [apply Z.pow_pos_nonneg; lia|].
  etrans; [|exact Hlo]. apply Z.pow_le_mono_r; lia.
Qed.

Lemma round_nearest_even_ge (m : Z) (l : location) : m <= round_nearest_even m l.
Proof. destruct l as [|[| |]]; simpl; try lia. destruct (Z.even m); lia. Qed.

(** [x] is a non-zero number of sign [s]. *)
Local Abbreviation signed s x :=
  ((∃ m e, x = S754_finite s m e) ∨ x = S754_infinity s).

Lemma binary_round_aux_signed (s : bool) (m e : Z) :
  0 < m → emin <= e → signed s (binary_round_aux prec emax s m e loc_Exact).
Proof.
  intros Hm He. unfold binary_round_aux.
  destruct (shr_fexp_positive m e Hm He) as [H1 H2].
  destruct (shr_fexp prec emax m e loc_Exact) as [mrs' e']. cbn [fst snd] in *.
  pose proof (round_nearest_even_ge (shr_m mrs') (loc_of_shr_record mrs')) as Hr.
  destruct (shr_fexp_positive (round_nearest_even (shr_m mrs') (loc_of_shr_record mrs')) e')
    as [H3 H4]; [lia|done|].
  destruct (shr_fexp prec emax _ e' loc_Exact) as [mrs'' e'']. cbn [fst snd] in *.
  destruct (shr_m mrs'') as [|q|q]; try lia.
  destruct (e'' <=? emax - prec); [left; eauto | by right].
Qed.

Lemma binary_round_signed (s : bool) (m : positive) (e : Z) :
  emin <= e → signed s (binary_round prec emax s m e).
Proof.
  intros He. unfold binary_round.
  destruct (shl_align m e (fexp prec emax (Z.pos (digits2_pos m) + e))) as [mz ez] eqn:E.
  apply binary_round_aux_signed; [lia|].
  unfold shl_align in E.
  destruct (fexp prec emax (Z.pos (digits2_pos m) + e) - e) eqn:En; simplify_eq; try done.
  unfold fexp. lia.
Qed.

Lemma shl_align_value (m : positive) (e ez : Z) :
  ez <= e → Z.pos (shl_align m e ez).1 = Z.pos m * 2 ^ (e - ez).
Proof.
  intros H. unfold shl_align. destruct (ez - e) as [|d|d] eqn:Ed; cbn [fst]; try lia.
  - replace (e - ez) with 0 by lia. lia.
  - replace (e - ez) with (Z.pos d) by lia.
    clear. induction d as [|d IH] using Pos.peano_ind.
    + simpl. lia.
    + rewrite Pos.iter_succ, Pos2Z.inj_xO, IH, Pos2Z.inj_succ, Z.pow_succ_r by lia. lia.
Qed.

Lemma canonical_exponent (m : positive) (e : Z) :
  bounded prec emax m e = true →
  emin <= e ∧ Z.pos (digits2_pos m) <= prec
  ∧ (emin < e → Z.pos (digits2_pos m) = prec).
Proof.
  unfold bounded, canonical_mantissa, fexp. intros [H _]%andb_prop. apply Z.eqb_eq in H. lia.
Qed.

(** Of two valid finite numbers of one sign, the one with the larger exponent
    has the larger magnitude. *)
Lemma larger_exponent (m1 m2 : positive) (e1 e2 : Z) :
  bounded prec emax m1 e1 = true → bounded prec emax m2 e2 = true → e1 < e2 →
  Z.pos m1 < Z.pos m2 * 2 ^ (e2 - e1).
Proof.
  intros (Hmin1 & Hd1 & _)%canonical_exponent (_ & _ & Hd2)%canonical_exponent He.
  pose proof (digits2_bounds m1) as [_ Hhi]. pose proof (digits2_bounds m2) as [Hlo _].
  rewrite Hd2 in Hlo by lia.
  assert (2 ^ Z.pos (digits2_pos m1) <= 2 ^ prec) by (apply Z.pow_le_mono_r; lia).
  assert (2 ^ prec = 2 * 2 ^ (prec - 1)) as Hp by reflexivity.
  assert (2 ^ 1 <= 2 ^ (e2 - e1)) by (apply Z.pow_le_mono_r; lia).
  nia.
Qed.

Lemma SFsub_negative (x y : spec_float) :
  valid_binary x = true → valid_binary y = true →
  SFltb x y = true → SFltb (SF64sub x y) (S754_zero false) = true.
Proof.
  assert (∀ z, signed true z → SFltb z (S754_zero false) = true) as Hneg
    by (intros z [(m & e & ->)| ->]; reflexivity).
  unfold SFltb at 1.
  destruct x as [sx|sx| |sx mx ex], y as [sy|sy| |sy my ey]; cbn [SFcompare valid_binary];
    intros Vx Vy Hlt; try discriminate;
    try (destruct sx; try discriminate; try destruct sy; try discriminate; reflexivity);
    try (destruct sy; try discriminate; reflexivity).
  apply Hneg. unfold SF64sub, SFsub, binary_normalize.
  pose proof (canonical_exponent _ _ Vx) as (Hx & _). pose proof (canonical_exponent _ _ Vy) as (Hy & _).
  pose proof (shl_align_value mx ex (Z.min ex ey)) as Ex.
  pose proof (shl_align_value my ey (Z.min ex ey)) as Ey.
  rewrite Ex, Ey by lia. clear Ex Ey.
  assert (0 < 2 ^ (ex - Z.min ex ey)) by (apply Z.pow_pos_nonneg; lia).
  assert (0 < 2 ^ (ey - Z.min ex ey)) by (apply Z.pow_pos_nonneg; lia).
  assert (cond_Zopp sx (Z.pos mx * 2 ^ (ex - Z.min ex ey))
          - cond_Zopp sy (Z.pos my * 2 ^ (ey - Z.min ex ey)) < 0) as Hd.
  { destruct sx, sy; cbn [cond_Zopp]; try discriminate; try nia.
    - destruct (Z.compare_spec ex ey) as [->|Hl|Hg]; try discriminate.
      + rewrite Pos.compare_cont_spec in Hlt. cbn in Hlt.
        destruct (Pos.compare_spec mx my); try discriminate.
        rewrite Z.min_id, Z.sub_diag. lia.
      + pose proof (larger_exponent my mx ey ex Vy Vx Hg).
        rewrite Z.min_r, Z.sub_diag by lia. lia.
    - destruct (Z.compare_spec ex ey) as [->|Hl|Hg]; try discriminate.
      + rewrite Pos.compare_cont_spec in Hlt. cbn in Hlt.
        destruct (Pos.compare_spec mx my); try discriminate.
        rewrite Z.min_id, Z.sub_diag. lia.
      + pose proof (larger_exponent mx my ex ey Vx Vy Hl).
        rewrite Z.min_l, Z.sub_diag by lia. lia. }
  destruct (cond_Zopp sx _ - cond_Zopp sy _) as [|d|d]; try lia.
  apply binary_round_signed. lia.
Qed.
End Subtraction.

Lemma sub_negative (l t : number) :
  (l <? t)%float = true → (l - t <? 0)%float = true.
Proof.
  rewrite !ltb_spec, sub_spec. apply SFsub_negative; apply Prim2SF_valid.
Qed.

(** ** Arrays *)

Section ArrayFacts.
Context {A : Type} (f : A → bool).

Lemma filter_elem (l : list A) (x : A) :
  x ∈ Array.filter f l ↔ x ∈ l ∧ f x = true.
Proof. unfold Array.filter. rewrite !list_elem_of_In. apply filter_In. Qed.

Lemma filter_none (l : list A) :
  (∀ x, x ∈ l → f x = false) → Array.filter f l = [].
Proof.
  induction l as [|a l IH]; intros H; [reflexivity|]. simpl.
  rewrite (H a) by left. apply IH. intros x Hx. apply H. by right.
Qed.

Lemma filter_all (l : list A) :
  (∀ x, x ∈ l → f x = true) → Array.filter f l = l.
Proof.
  induction l as [|a l IH]; intros H; [reflexivity|]. simpl.
  rewrite (H a) by left. f_equal. apply IH. intros x Hx. apply H. by right.
Qed.

(** [find] returns the first element, in index order, that satisfies [f]. *)
Lemma find_first (l : list A) (x : A) :
  Array.find f l = Some x ↔
  ∃ before after, l = before ++ x :: after ∧ f x = true ∧ ∀ y, y ∈ before → f y = false.
Proof.
  unfold Array.find. induction l as [|a l IH]; simpl.
  - split; [discriminate|]. intros (b & c & H & _). by destruct b.
  - destruct (f a) eqn:Ha.
    + split.
      * intros [= ->]. exists [], l. split_and!; [done..|]. intros y Hy. inversion Hy.
      * intros ([|b before] & after & H & Hx & Hb); simplify_eq/=; [done|].
        rewrite (Hb b) in Ha by left. discriminate.
    + rewrite IH. split.
      * intros (before & after & -> & Hx & Hb). exists (a :: before), after.
        split_and!; [done..|]. intros y [->|Hy]%elem_of_cons; auto.
      * intros ([|b before] & after & H & Hx & Hb); simplify_eq/=; [congruence|].
        exists before, after. split_and!; [done..|]. intros y Hy. apply Hb. by right.
Qed.

Lemma find_null (l : list A) :
  Array.find f l = None ↔ ∀ y, y ∈ l → f y = false.
Proof.
  unfold Array.find. split.
  - intros H y Hy. apply (find_none f l H). by apply list_elem_of_In.
  - induction l as [|a l IH]; intros H; [reflexivity|]. simpl.
    rewrite (H a) by left. apply IH. intros y Hy. apply H. by right.
Qed.

Lemma findIndex_bounds (l : list A) :
  (-1 ≤ Array.findIndex f l < Z.of_nat (length l))%Z.
Proof.
  induction l as [|a l IH]; simpl; [lia|].
  destruct (f a); [lia|]. destruct (Z.eqb_spec (Array.findIndex f l) (-1)); lia.
Qed.

(** [findIndex] is [-1] exactly when no element satisfies [f]. *)
Lemma findIndex_absent (l : list A) :
  Array.findIndex f l = (-1)%Z ↔ ∀ y, y ∈ l → f y = false.
Proof.
  induction l as [|a l IH]; simpl.
  - split; [|done]. intros _ y Hy. inversion Hy.
  - pose proof (findIndex_bounds l) as Hb.
    destruct (f a) eqn:Ha.
    + split; [discriminate|]. intros H. rewrite (H a) in Ha by left. discriminate.
    + destruct (Z.eqb_spec (Array.findIndex f l) (-1)) as [E|E].
      * split; [|done]. intros _ y [->|Hy]%elem_of_cons; [done|]. by apply IH.
      * split; [lia|]. intros H. exfalso. apply E, IH. intros y Hy. apply H. by right.
Qed.

(** Otherwise it is the index of the first element that satisfies [f]. *)
Lemma findIndex_present (l : list A) :
  Array.findIndex f l ≠ (-1)%Z →
  ∃ x, Array.at_index l (Array.findIndex f l) = Some x ∧ f x = true
       ∧ Array.find f l = Some x
       ∧ ∀ j y, (j < Z.to_nat (Array.findIndex f l))%nat → l !! j = Some y → f y = false.
Proof.
  unfold Array.at_index, Array.find.
  induction l as [|a l IH]; simpl; [done|].
  pose proof (findIndex_bounds l) as Hb.
  destruct (f a) eqn:Ha.
  - intros _. exists a. split_and!; [done..|]. intros j y Hj. simpl in Hj. lia.
  - destruct (Z.eqb_spec (Array.findIndex f l) (-1)) as [E|E]; [done|].
    intros _. destruct (IH E) as (x & Hx & Hfx & Hfind & Hfirst).
    exists x. replace (Z.to_nat (1 + Array.findIndex f l)) with (S (Z.to_nat (Array.findIndex f l))) by lia.
    split_and!; [done..|].
    intros [|j] y Hj Hy; simpl in Hy; [by simplify_eq|].
    apply (Hfirst j); [lia|done].
Qed.
End ArrayFacts.

Lemma reduce_push {A B} (f : B → A → B) (init : B) (l : list A) (x : A) :
  Array.reduce f init (Array.push x l) = f (Array.reduce f init l) x.
Proof. unfold Array.reduce, Array.push. by rewrite fold_left_app. Qed.

(** ** The spending summary *)

Lemma total_is_sum (expenses : list Expense) :
  GetSpendingSummaryUseCase.total expenses = Spec.sum_of_amounts expenses.
Proof.
  unfold GetSpendingSummaryUseCase.total, Spec.sum_of_amounts.
  induction expenses as [|e l IH] using rev_ind; [reflexivity|].
  change (l ++ [e]) with (Array.push e l) at 1. rewrite reduce_push, IH.
  by rewrite map_app, rev_app_distr.
Qed.

(** What [execute] does, read off its two lookups. *)
Lemma execute_unfold (app : AppModule.t) (userId : string) (month year : number) :
  GetSpendingSummaryUseCase.execute userId month year app =
  let expenses :=
    Array.filter (InMemoryExpenseRepository.in_month userId month year)
      (InMemoryExpenseRepository.expenses (AppModule.EXPENSE_REPOSITORY app)) in
  let total := GetSpendingSummaryUseCase.total expenses in
  match Array.find (InMemorySpendingLimitRepository.for_key userId month year)
          (InMemorySpendingLimitRepository.limits (AppModule.SPENDING_LIMIT_REPOSITORY app)) with
  | None => (inr (Summary total None None None), app)
  | Some limit =>
      (inr (Summary total
              (Some (SpendingLimit.monthlyLimit limit))
              (Some (SpendingLimit.monthlyLimit limit - total)%float)
              (Some (total / SpendingLimit.monthlyLimit limit * 100)%float)), app)
  end.
Proof.
  destruct app as [[es] [ls] lc].
  settle. unfold Array.find. by destruct (List.find _ ls).
Qed.

Lemma findByMonth_resolves (s : InMemoryExpenseRepository.t) userId month year expenses :
  resolved (InMemoryExpenseRepository.findByMonth userId month year s) = Some expenses →
  expenses = Array.filter (InMemoryExpenseRepository.in_month userId month year)
               (InMemoryExpenseRepository.expenses s).
Proof. by intros [= <-]. Qed.

Lemma findByUserAndMonth_resolves (s : InMemorySpendingLimitRepository.t) userId month year r :
  resolved (InMemorySpendingLimitRepository.findByUserAndMonth userId month year s) = Some r →
  r = Array.find (InMemorySpendingLimitRepository.for_key userId month year)
        (InMemorySpendingLimitRepository.limits s).
Proof. by intros [= <-]. Qed.

(** C1. For every sequence of expenses found for the month and every limit
    found for the key, the summary resolves with [totalSpent] the sum of the
    amounts (0 for the empty sequence), [spendingLimit] the limit's
    [monthlyLimit], [remainingBudget = monthlyLimit - totalSpent] as computed,
    without clamping, and [percentageUsed = (totalSpent / monthlyLimit) * 100];
    with a limit of 1000 and 600 spent these are 400 and 60; and whenever
    more was spent than the limit, the remaining budget is negative. *)
Theorem summary_with_limit
    (app : AppModule.t) (userId : string) (month year : number)
    (expenses : list Expense) (limit : SpendingLimit) :
  resolved (InMemoryExpenseRepository.findByMonth userId month year
              (AppModule.EXPENSE_REPOSITORY app)) = Some expenses →
  resolved (InMemorySpendingLimitRepository.findByUserAndMonth userId month year
              (AppModule.SPENDING_LIMIT_REPOSITORY app)) = Some (Some limit) →
  let total := Spec.sum_of_amounts expenses in
  let monthlyLimit := SpendingLimit.monthlyLimit limit in
  ∃ summary,
    GetSpendingSummaryUseCase.execute userId month year app = (inr summary, app)
    ∧ totalSpent summary = total
    ∧ (expenses = [] → totalSpent summary = 0%float)
    ∧ spendingLimit summary = Some monthlyLimit
    ∧ remainingBudget summary = Some (monthlyLimit - total)%float
    ∧ percentageUsed summary = Some (total / monthlyLimit * 100)%float
    ∧ (monthlyLimit = 1000%float → total = 600%float →
       remainingBudget summary = Some 400%float ∧ percentageUsed summary = Some 60%float)
    ∧ ((monthlyLimit <? total)%float = true →
       ∃ r, remainingBudget summary = Some r ∧ (r <? 0)%float = true).
Proof.
  intros He%findByMonth_resolves Hl%findByUserAndMonth_resolves total monthlyLimit.
  rewrite execute_unfold. cbv zeta. rewrite <- Hl, <- He, total_is_sum.
  fold total monthlyLimit. eexists. split; [reflexivity|]. cbn.
  split_and!; try reflexivity.
  - intros ->. reflexivity.
  - intros -> ->. by split.
  - intros Hover. eexists. split; [reflexivity|]. by apply sub_negative.
Qed.

Lemma summary_with_limit_witness :
  resolved (InMemoryExpenseRepository.findByMonth Scenario.user 1 2025
              (AppModule.EXPENSE_REPOSITORY (Scenario.app Http.limits_by_token)))
    = Some [Scenario.expense_a; Scenario.expense_b]
  ∧ resolved (InMemorySpendingLimitRepository.findByUserAndMonth Scenario.user 1 2025
                (AppModule.SPENDING_LIMIT_REPOSITORY (Scenario.app Http.limits_by_token)))
    = Some (Some Scenario.limit)
  ∧ ∃ summary,
      GetSpendingSummaryUseCase.execute Scenario.user 1 2025 (Scenario.app Http.limits_by_token)
        = (inr summary, Scenario.app Http.limits_by_token)
      ∧ totalSpent summary = 600%float
      ∧ remainingBudget summary = Some 400%float
      ∧ percentageUsed summary = Some 60%float.
Proof.
  split; [reflexivity|]. split; [reflexivity|].
  destruct (summary_with_limit (Scenario.app Http.limits_by_token) Scenario.user 1 2025
              [Scenario.expense_a; Scenario.expense_b] Scenario.limit eq_refl eq_refl)
    as (summary & Hrun & Htotal & _ & _ & _ & _ & Hex & _).
  exists summary. split; [exact Hrun|]. split; [exact Htotal|].
  exact (Hex eq_refl eq_refl).
Defined.

(** C2. When the limit lookup finds no limit for the key, the summary is
    exactly [{ totalSpent: X, spendingLimit: null, remainingBudget: null,
    percentageUsed: null }] with [X] the sum of the amounts of the expenses
    found, whatever they are. *)
Theorem summary_without_limit
    (app : AppModule.t) (userId : string) (month year : number) (expenses : list Expense) :
  resolved (InMemoryExpenseRepository.findByMonth userId month year
              (AppModule.EXPENSE_REPOSITORY app)) = Some expenses →
  resolved (InMemorySpendingLimitRepository.findByUserAndMonth userId month year
              (AppModule.SPENDING_LIMIT_REPOSITORY app)) = Some None →
  GetSpendingSummaryUseCase.execute userId month year app
  = (inr (Summary (Spec.sum_of_amounts expenses) None None None), app).
Proof.
  intros He%findByMonth_resolves Hl%findByUserAndMonth_resolves.
  rewrite execute_unfold. cbv zeta. by rewrite <- Hl, <- He, total_is_sum.
Qed.

Lemma summary_without_limit_witness :
  resolved (InMemoryExpenseRepository.findByMonth Scenario.user 2 2025
              (AppModule.EXPENSE_REPOSITORY Scenario.app_february))
    = Some [Scenario.expense_c]
  ∧ resolved (InMemorySpendingLimitRepository.findByUserAndMonth Scenario.user 2 2025
                (AppModule.SPENDING_LIMIT_REPOSITORY Scenario.app_february))
    = Some None
  ∧ GetSpendingSummaryUseCase.execute Scenario.user 2 2025 Scenario.app_february
    = (inr (Summary (Spec.sum_of_amounts [Scenario.expense_c]) None None None),
       Scenario.app_february).
Proof.
  split; [reflexivity|]. split; [reflexivity|].
  exact (summary_without_limit Scenario.app_february Scenario.user 2 2025
           [Scenario.expense_c] eq_refl eq_refl).
Defined.

(** With a zero divisor, a dividend that is a number other than 0 gives an
    infinite percentage. *)
Lemma percentage_of_zero_limit_infinite (t z : number) :
  Number.strict_eq z 0 = true →
  Number.isNaN t = false → Number.strict_eq t 0 = false →
  Number.isInfinite (t / z * 100)%float = true.
Proof.
  intros Hz%strict_eq_zero.
  unfold Number.isNaN, PrimFloat.is_nan, Number.strict_eq.
  rewrite !(FloatAxioms.eqb_spec t). intros Hnan Hzero.
  assert (∃ sz, Prim2SF z = S754_zero sz) as [sz Ez]
    by (destruct Hz as [->| ->]; [exists false | exists true]; reflexivity).
  assert (∃ s, Prim2SF (t / z) = S754_infinity s) as [s Hs].
  { rewrite div_spec, Ez.
    destruct (Prim2SF t) as [st|st| |st m e]; try done; by eexists. }
  apply float_of_spec in Hs. rewrite Hs. by destruct s.
Qed.

(** C5. When the limit found for the key has [monthlyLimit] equal to 0, the
    summary still resolves (nothing is thrown): it is the summary computed as
    for any other limit, with [totalSpent] the sum of the amounts found and
    [percentageUsed] the quotient [(totalSpent / monthlyLimit) * 100] itself,
    no value substituted; that quotient is [NaN] or infinite, never finite,
    and infinite whenever the total is a number other than 0. *)
Theorem summary_with_zero_limit
    (app : AppModule.t) (userId : string) (month year : number)
    (expenses : list Expense) (limit : SpendingLimit) :
  resolved (InMemoryExpenseRepository.findByMonth userId month year
              (AppModule.EXPENSE_REPOSITORY app)) = Some expenses →
  resolved (InMemorySpendingLimitRepository.findByUserAndMonth userId month year
              (AppModule.SPENDING_LIMIT_REPOSITORY app)) = Some (Some limit) →
  Spec.same_number (SpendingLimit.monthlyLimit limit) 0 →
  let total := Spec.sum_of_amounts expenses in
  let monthlyLimit := SpendingLimit.monthlyLimit limit in
  let percentage := (total / monthlyLimit * 100)%float in
  GetSpendingSummaryUseCase.execute userId month year app
  = (inr (Summary total (Some monthlyLimit) (Some (monthlyLimit - total)%float)
            (Some percentage)), app)
  ∧ (Number.isNaN percentage = true ∨ Number.isInfinite percentage = true)
  ∧ Number.isFinite percentage = false
  ∧ (Number.isNaN total = false → Number.strict_eq total 0 = false →
     Number.isInfinite percentage = true).
Proof.
  intros He%findByMonth_resolves Hl%findByUserAndMonth_resolves Hz total monthlyLimit percentage.
  rewrite execute_unfold. cbv zeta. rewrite <- Hl, <- He, total_is_sum.
  fold total monthlyLimit percentage. split; [reflexivity|].
  pose proof (percentage_of_zero_limit total monthlyLimit Hz) as H.
  fold percentage in H. split; [exact H|]. split.
  - unfold Number.isFinite. destruct H as [-> | ->]; [done|]. apply andb_false_r.
  - by apply percentage_of_zero_limit_infinite.
Qed.

Lemma summary_with_zero_limit_witness :
  resolved (InMemoryExpenseRepository.findByMonth Scenario.user 1 2025
              (AppModule.EXPENSE_REPOSITORY Scenario.app_zero_limit))
    = Some [Scenario.expense_a; Scenario.expense_b]
  ∧ resolved (InMemorySpendingLimitRepository.findByUserAndMonth Scenario.user 1 2025
                (AppModule.SPENDING_LIMIT_REPOSITORY Scenario.app_zero_limit))
    = Some (Some Scenario.zero_limit)
  ∧ Spec.same_number (SpendingLimit.monthlyLimit Scenario.zero_limit) 0
  ∧ GetSpendingSummaryUseCase.execute Scenario.user 1 2025 Scenario.app_zero_limit
    = (inr (Summary 600 (Some 0) (Some (-600)) (Some infinity))%float,
       Scenario.app_zero_limit).
Proof.
  split; [reflexivity|]. split; [reflexivity|]. split; [reflexivity|].
  exact (proj1 (summary_with_zero_limit Scenario.app_zero_limit Scenario.user 1 2025
                  [Scenario.expense_a; Scenario.expense_b] Scenario.zero_limit
                  eq_refl eq_refl eq_refl)).
Defined.

(** ** The expense store: monthly filter *)

Lemma strict_eq_nan (x : number) : Number.strict_eq nan x = false.
Proof. unfold Number.strict_eq. rewrite FloatAxioms.eqb_spec. reflexivity. Qed.

Lemma month_number_index (m : MonthIndex) :
  (DateAPI.index m + 1)%float = Number.of_Z (Spec.month_number m).
Proof. by destruct m. Qed.

(** The callback of [findByMonth] decides the specification's "belongs to
    the user and falls in the calendar month". *)
Lemma in_month_spec (userId : string) (month year : number) (e : Expense) :
  InMemoryExpenseRepository.in_month userId month year e = true
  ↔ Spec.in_calendar_month userId month year e.
Proof.
  unfold InMemoryExpenseRepository.in_month, Spec.in_calendar_month, Spec.same_number.
  rewrite !andb_true_iff, String.eqb_eq.
  destruct (Expense.date e) as [|y m d]; simpl.
  - change (nan + 1)%float with nan. rewrite !strict_eq_nan. split.
    + intros [[_ ?] _]. discriminate.
    + intros (_ & ? & ? & ? & ? & _). discriminate.
  - rewrite month_number_index. split.
    + intros [[Hu Hm] Hy]. split; [done|]. by exists y, m, d.
    + intros (Hu & y' & m' & d' & [= -> -> ->] & Hm & Hy). done.
Qed.

Lemma filter_sublist {A} (f : A → bool) (l : list A) : Array.filter f l `sublist_of` l.
Proof.
  induction l as [|a l IH]; simpl; [constructor|].
  destruct (f a); by constructor.
Qed.

Lemma filter_twice {A} (f g : A → bool) (l : list A) :
  Array.filter g (Array.filter f l) = Array.filter (λ x, f x && g x) l.
Proof.
  induction l as [|a l IH]; simpl; [done|].
  destruct (f a); simpl; [destruct (g a)|]; by rewrite <- IH.
Qed.

Lemma filter_ext {A} (f g : A → bool) (l : list A) :
  (∀ x, f x = g x) → Array.filter f l = Array.filter g l.
Proof. intros H. induction l as [|a l IH]; simpl; [done|]. by rewrite H, IH. Qed.

Lemma create_effect (uuid : string) (x : Expense.omit_id) (s : InMemoryExpenseRepository.t) :
  InMemoryExpenseRepository.create uuid x s
  = let e := Expense.new uuid (Expense.o_amount x) (Expense.o_description x)
               (Expense.o_category x) (Expense.o_date x) (Expense.o_userId x) in
    (inr e, InMemoryExpenseRepository.Build (InMemoryExpenseRepository.expenses s ++ [e])).
Proof. reflexivity. Qed.

Lemma delete_effect (id : string) (s : InMemoryExpenseRepository.t) :
  InMemoryExpenseRepository.delete id s
  = (inr tt,
     InMemoryExpenseRepository.Build
       (Array.filter (λ e, negb (String.eqb (Expense.id e) id))
          (InMemoryExpenseRepository.expenses s))).
Proof. reflexivity. Qed.

(** After [calls], a store holds what it held and no call deleted, followed
    by what the calls inserted and did not delete afterwards. *)
Lemma run_stored (calls : list History.Call) (s : InMemoryExpenseRepository.t) :
  InMemoryExpenseRepository.expenses (History.run calls s)
  = Array.filter (λ e, negb (Spec.deleted_by calls (Expense.id e)))
      (InMemoryExpenseRepository.expenses s)
    ++ Spec.stored calls.
Proof.
  revert s. induction calls as [|[uuid x|id] later IH]; intros s.
  - cbn. by rewrite filter_all, app_nil_r.
  - change (History.run (History.Create uuid x :: later) s)
      with (History.run later (History.call (History.Create uuid x) s)).
    rewrite IH. unfold History.call. rewrite create_effect. cbv zeta.
    unfold state_after, Array.filter. cbn [snd InMemoryExpenseRepository.expenses].
    rewrite List.filter_app, <- app_assoc. f_equal. cbn [List.filter Expense.id].
    cbn [Spec.stored]. f_equal. by destruct (Spec.deleted_by later uuid).
  - change (History.run (History.Delete id :: later) s)
      with (History.run later (History.call (History.Delete id) s)).
    rewrite IH. unfold History.call. rewrite delete_effect.
    unfold state_after. cbn [snd InMemoryExpenseRepository.expenses Spec.stored].
    f_equal. rewrite filter_twice. apply filter_ext. intros e.
    cbn [Spec.deleted_by existsb]. rewrite negb_orb. by rewrite (String.eqb_sym id).
Qed.

Lemma reach_stored (calls : list History.Call) :
  InMemoryExpenseRepository.expenses (History.reach calls) = Spec.stored calls.
Proof. unfold History.reach. by rewrite run_stored. Qed.

(** C4. In every state of the store reached by [create] and [delete] calls,
    [findByMonth(U, M, Y)] resolves (it never rejects) with exactly the stored
    expenses whose [userId] is [U] and whose date falls in calendar month [M]
    (1-indexed) of year [Y], in insertion order, and no others; when nothing
    matches it resolves with the empty sequence. *)
Theorem findByMonth_exact (calls : list History.Call) (userId : string) (month year : number) :
  let s := History.reach calls in
  ∃ found,
    InMemoryExpenseRepository.findByMonth userId month year s = (inr found, s)
    ∧ InMemoryExpenseRepository.expenses s = Spec.stored calls
    ∧ found = Array.filter (InMemoryExpenseRepository.in_month userId month year)
                (Spec.stored calls)
    ∧ (∀ e, InMemoryExpenseRepository.in_month userId month year e = true
            ↔ Spec.in_calendar_month userId month year e)
    ∧ (∀ e, e ∈ found ↔ e ∈ Spec.stored calls ∧ Spec.in_calendar_month userId month year e)
    ∧ found `sublist_of` Spec.stored calls
    ∧ ((∀ e, e ∈ Spec.stored calls → ¬ Spec.in_calendar_month userId month year e) →
       found = []).
Proof.
  intros s. pose proof (reach_stored calls) as Hs. fold s in Hs.
  exists (Array.filter (InMemoryExpenseRepository.in_month userId month year)
            (Spec.stored calls)).
  split_and!.
  - settle. by rewrite Hs.
  - exact Hs.
  - reflexivity.
  - intros e. apply in_month_spec.
  - intros e. by rewrite filter_elem, in_month_spec.
  - apply filter_sublist.
  - intros H. apply filter_none. intros e He.
    destruct (InMemoryExpenseRepository.in_month userId month year e) eqn:E; [|done].
    apply in_month_spec in E. by destruct (H e He).
Qed.

(** C10. In every state of the store, for every user and year,
    [findByMonth] with a month outside the range 1 to 12 resolves with the
    empty sequence: the 1-indexed month of a stored date lies in 1..12 (and
    an invalid date has none). *)
Theorem findByMonth_month_out_of_range
    (s : InMemoryExpenseRepository.t) (userId : string) (month year : number) :
  ¬ Spec.month_in_range month →
  InMemoryExpenseRepository.findByMonth userId month year s = (inr [], s).
Proof.
  intros Hout. settle. f_equal. f_equal. apply filter_none. intros e _.
  destruct (InMemoryExpenseRepository.in_month userId month year e) eqn:E; [|done].
  exfalso. apply Hout.
  apply in_month_spec in E as (_ & y & m & d & _ & Hm & _).
  assert (month = Number.of_Z (Spec.month_number m)) as ->
    by (destruct m; (eapply strict_eq_finite; [reflexivity | exact Hm])).
  by destruct m.
Qed.

Lemma findByMonth_month_out_of_range_witness :
  ¬ Spec.month_in_range 13
  ∧ InMemoryExpenseRepository.findByMonth Scenario.user 13 2025
      (AppModule.EXPENSE_REPOSITORY (Scenario.app Http.limits_by_token))
    = (inr [], AppModule.EXPENSE_REPOSITORY (Scenario.app Http.limits_by_token)).
Proof.
  assert (¬ Spec.month_in_range 13) as H by (intros [_ H]; discriminate H).
  split; [exact H|].
  exact (findByMonth_month_out_of_range
           (AppModule.EXPENSE_REPOSITORY (Scenario.app Http.limits_by_token))
           Scenario.user 13 2025 H).
Defined.

(** ** The expense store: update and delete *)

Section ExpenseStore.
Variable s : InMemoryExpenseRepository.t.
Variable id : string.

Local Abbreviation has_id := (λ e : Expense, String.eqb (Expense.id e) id).

Lemma has_id_false (e : Expense) : has_id e = false ↔ Expense.id e ≠ id.
Proof. apply String.eqb_neq. Qed.

Lemma has_id_true (e : Expense) : has_id e = true ↔ Expense.id e = id.
Proof. apply String.eqb_eq. Qed.

Lemma absent_findIndex :
  (∀ e, e ∈ InMemoryExpenseRepository.expenses s → Expense.id e ≠ id)
  ↔ Array.findIndex has_id (InMemoryExpenseRepository.expenses s) = (-1)%Z.
Proof.
  rewrite findIndex_absent. split; intros H e He; apply has_id_false; auto.
Qed.

(** [update] on an absent id: the [throw] comes before any write. *)
Lemma update_absent (partial : Expense.partial) :
  (∀ e, e ∈ InMemoryExpenseRepository.expenses s → Expense.id e ≠ id) →
  InMemoryExpenseRepository.update id partial s = (inl (Error "Expense not found"), s).
Proof.
  intros H. apply absent_findIndex in H. settle. by rewrite H.
Qed.

(** [update] on a present id: the first expense with that id is rebuilt and
    written back at its index. *)
Lemma update_present (partial : Expense.partial) :
  (∃ e, e ∈ InMemoryExpenseRepository.expenses s ∧ Expense.id e = id) →
  ∃ (i : nat) (current : Expense),
    InMemoryExpenseRepository.expenses s !! i = Some current
    ∧ Expense.id current = id
    ∧ (∀ j e', (j < i)%nat → InMemoryExpenseRepository.expenses s !! j = Some e' →
               Expense.id e' ≠ id)
    ∧ let updated :=
        Expense.new id
          (Expense.p_amount partial ?? Expense.amount current)
          (Expense.p_description partial ?? Expense.description current)
          (Expense.p_category partial ?? Expense.category current)
          (Expense.p_date partial ?? Expense.date current)
          (Expense.p_userId partial ?? Expense.userId current) in
      InMemoryExpenseRepository.update id partial s
      = (inr updated,
         InMemoryExpenseRepository.Build
           (<[i := updated]> (InMemoryExpenseRepository.expenses s))).
Proof.
  intros (e & He & Hid).
  assert (Array.findIndex has_id (InMemoryExpenseRepository.expenses s) ≠ (-1)%Z) as Hi.
  { intros H. by apply (proj2 absent_findIndex H e). }
  destruct (findIndex_present has_id _ Hi) as (current & Hat & Hc & _ & Hfirst).
  exists (Z.to_nat (Array.findIndex has_id (InMemoryExpenseRepository.expenses s))), current.
  split_and!.
  - exact Hat.
  - by apply has_id_true.
  - intros j e' Hj He'. apply has_id_false. by apply (Hfirst j).
  - settle. apply Z.eqb_neq in Hi. rewrite Hi, Hat. reflexivity.
Qed.

Lemma present_or_absent :
  (∃ e, e ∈ InMemoryExpenseRepository.expenses s ∧ Expense.id e = id)
  ∨ (∀ e, e ∈ InMemoryExpenseRepository.expenses s → Expense.id e ≠ id).
Proof.
  destruct (Array.find has_id (InMemoryExpenseRepository.expenses s)) as [e|] eqn:E.
  - left. apply find_first in E as (b & a & Hl & He & _). exists e. split.
    + rewrite Hl. apply elem_of_app. right. by left.
    + by apply has_id_true.
  - right. intros e He. apply has_id_false. by apply (proj1 (find_null has_id _) E).
Qed.
End ExpenseStore.

Lemma field_after_nullish {A} (named : option A) (before : A) :
  Spec.field_after named before (named ?? before).
Proof. by destruct named. Qed.

(** C7. If an expense with the given id is stored, [update(id, partial)]
    resolves with that expense (the first with the id) rebuilt: the fields
    named in the partial replaced, every other field and the id kept; it is
    written back at the same index, the rest of the store untouched; for
    [{amount: a}] only [amount] changes.  If no stored expense has the id,
    [update] rejects with [Error('Expense not found')]. *)
Theorem update_replaces_named_fields
    (s : InMemoryExpenseRepository.t) (id : string) (partial : Expense.partial) :
  ((∃ e, e ∈ InMemoryExpenseRepository.expenses s ∧ Expense.id e = id) →
   ∃ (i : nat) (current updated : Expense),
     InMemoryExpenseRepository.expenses s !! i = Some current
     ∧ Expense.id current = id
     ∧ (∀ j e', (j < i)%nat → InMemoryExpenseRepository.expenses s !! j = Some e' →
                Expense.id e' ≠ id)
     ∧ InMemoryExpenseRepository.update id partial s
       = (inr updated,
          InMemoryExpenseRepository.Build
            (<[i := updated]> (InMemoryExpenseRepository.expenses s)))
     ∧ Spec.updated_by partial current updated
     ∧ (∀ a, partial = Expense.Partial None (Some a) None None None None →
             updated = Expense.new (Expense.id current) a (Expense.description current)
                         (Expense.category current) (Expense.date current)
                         (Expense.userId current)))
  ∧ ((∀ e, e ∈ InMemoryExpenseRepository.expenses s → Expense.id e ≠ id) →
     rejected (InMemoryExpenseRepository.update id partial s)
     = Some (Error "Expense not found")).
Proof.
  split.
  - intros H. destruct (update_present s id partial H) as (i & current & Hi & Hid & Hfirst & Hrun).
    cbv zeta in Hrun. eexists i, current, _.
    split; [exact Hi|]. split; [exact Hid|]. split; [exact Hfirst|]. split; [exact Hrun|].
    split.
    + unfold Spec.updated_by. cbn. split_and!; [done|apply field_after_nullish..].
    + intros a ->. cbn. by rewrite Hid.
  - intros H. by rewrite (update_absent s id partial H).
Qed.

Lemma update_replaces_named_fields_witness :
  let s := InMemoryExpenseRepository.Build [Scenario.expense_a; Scenario.expense_b] in
  (∃ e, e ∈ InMemoryExpenseRepository.expenses s ∧ Expense.id e = "expense-b")
  ∧ ∃ (i : nat) (current updated : Expense),
      InMemoryExpenseRepository.expenses s !! i = Some current
      ∧ InMemoryExpenseRepository.update "expense-b"
          (Expense.Partial None (Some 75%float) None None None None) s
        = (inr updated,
           InMemoryExpenseRepository.Build
             (<[i := updated]> (InMemoryExpenseRepository.expenses s)))
      ∧ updated = Expense.new (Expense.id current) 75 (Expense.description current)
                    (Expense.category current) (Expense.date current)
                    (Expense.userId current).
Proof.
  intros s.
  assert (∃ e, e ∈ InMemoryExpenseRepository.expenses s ∧ Expense.id e = "expense-b") as H.
  { exists Scenario.expense_b. split; [|reflexivity]. right. left. }
  split; [exact H|].
  destruct (update_replaces_named_fields s "expense-b"
              (Expense.Partial None (Some 75%float) None None None None))
    as [Hpresent _].
  destruct (Hpresent H) as (i & current & updated & Hi & _ & _ & Hrun & _ & Hamount).
  exists i, current, updated. split; [exact Hi|]. split; [exact Hrun|].
  exact (Hamount 75%float eq_refl).
Defined.

(** C8. In every state and for every id, [delete(id)] resolves, never
    rejects, whether or not an expense with the id is stored; afterwards
    [findById(id)] resolves with [null]; a store without the id is left as it
    was, deleting again changes nothing, and the expenses with another id
    all stay. *)
Theorem delete_never_fails (s : InMemoryExpenseRepository.t) (id : string) :
  ∃ s',
    InMemoryExpenseRepository.delete id s = (inr tt, s')
    ∧ InMemoryExpenseRepository.findById id s' = (inr None, s')
    ∧ InMemoryExpenseRepository.delete id s' = (inr tt, s')
    ∧ ((∀ e, e ∈ InMemoryExpenseRepository.expenses s → Expense.id e ≠ id) → s' = s)
    ∧ (∀ e, e ∈ InMemoryExpenseRepository.expenses s'
            ↔ e ∈ InMemoryExpenseRepository.expenses s ∧ Expense.id e ≠ id).
Proof.
  eexists. split; [apply delete_effect|]. destruct s as [es]. cbn.
  assert (∀ e, e ∈ Array.filter (λ e, negb (String.eqb (Expense.id e) id)) es
               ↔ e ∈ es ∧ Expense.id e ≠ id) as Hin.
  { intros e. by rewrite filter_elem, negb_true_iff, String.eqb_neq. }
  split_and!.
  - settle. f_equal. f_equal. apply find_null. intros e [_ He]%Hin.
    by apply String.eqb_neq.
  - rewrite delete_effect. cbn. f_equal. f_equal. apply filter_all.
    intros e [_ He]%Hin. by rewrite negb_true_iff, String.eqb_neq.
  - intros H. f_equal. apply filter_all. intros e He.
    rewrite negb_true_iff, String.eqb_neq. by apply H.
  - exact Hin.
Qed.

(** C9. [update] is atomic on failure: when no stored expense has the id it
    rejects with [Error('Expense not found')] and the store is what it was;
    and whenever [update] rejects, no stored expense had the id and the store
    is what it was. *)
Theorem update_atomic_on_failure
    (s : InMemoryExpenseRepository.t) (id : string) (partial : Expense.partial) :
  ((∀ e, e ∈ InMemoryExpenseRepository.expenses s → Expense.id e ≠ id) →
   rejected (InMemoryExpenseRepository.update id partial s) = Some (Error "Expense not found")
   ∧ state_after (InMemoryExpenseRepository.update id partial s) = s)
  ∧ (∀ err, rejected (InMemoryExpenseRepository.update id partial s) = Some err →
            state_after (InMemoryExpenseRepository.update id partial s) = s
            ∧ ∀ e, e ∈ InMemoryExpenseRepository.expenses s → Expense.id e ≠ id).
Proof.
  split.
  - intros H. by rewrite (update_absent s id partial H).
  - intros err Herr. destruct (present_or_absent s id) as [H|H].
    + destruct (update_present s id partial H) as (i & current & _ & _ & _ & Hrun).
      cbv zeta in Hrun. rewrite Hrun in Herr. discriminate.
    + by rewrite (update_absent s id partial H).
Qed.

Lemma update_atomic_on_failure_witness :
  let s := InMemoryExpenseRepository.Build [Scenario.expense_a; Scenario.expense_b] in
  (∀ e, e ∈ InMemoryExpenseRepository.expenses s → Expense.id e ≠ "expense-z")
  ∧ rejected (InMemoryExpenseRepository.update "expense-z"
                (Expense.Partial None (Some 75%float) None None None None) s)
    = Some (Error "Expense not found")
  ∧ state_after (InMemoryExpenseRepository.update "expense-z"
                   (Expense.Partial None (Some 75%float) None None None None) s) = s.
Proof.
  intros s.
  assert (∀ e, e ∈ InMemoryExpenseRepository.expenses s → Expense.id e ≠ "expense-z") as H.
  { intros e He. cbn in He. rewrite !elem_of_cons in He.
    destruct He as [->|[->|He]]; [discriminate..|inversion He]. }
  split; [exact H|].
  exact (proj1 (update_atomic_on_failure s "expense-z"
                  (Expense.Partial None (Some 75%float) None None None None)) H).
Defined.

(** ** The spending-limit store *)

Lemma for_key_spec (userId : string) (month year : number) (l : SpendingLimit) :
  InMemorySpendingLimitRepository.for_key userId month year l = true
  ↔ Spec.limit_for userId month year l.
Proof.
  unfold InMemorySpendingLimitRepository.for_key, Spec.limit_for, Spec.same_number.
  rewrite !andb_true_iff, String.eqb_eq. tauto.
Qed.

Lemma for_key_not (userId : string) (month year : number) (l : SpendingLimit) :
  InMemorySpendingLimitRepository.for_key userId month year l = false
  ↔ ¬ Spec.limit_for userId month year l.
Proof. rewrite <- for_key_spec. by destruct (InMemorySpendingLimitRepository.for_key _ _ _ _). Qed.

Lemma find_push_found {A} (f : A → bool) (l : list A) (x y : A) :
  Array.find f l = Some x → Array.find f (Array.push y l) = Some x.
Proof.
  unfold Array.find, Array.push. induction l as [|a l IH]; simpl; [discriminate|].
  by destruct (f a).
Qed.

(** C6. [create] on the limit store always resolves and appends the new
    limit, whatever the store holds: two calls with the same
    [(userId, month, year)] leave two limits side by side.  In every state,
    [findByUserAndMonth] resolves with the first limit for the key in
    insertion order, or with [null] when there is none, and keeps resolving
    with that first limit after any later [create]. *)
Theorem limit_store_first_match_wins
    (s : InMemorySpendingLimitRepository.t) (userId : string) (month year : number) :
  (∀ uuid data,
     InMemorySpendingLimitRepository.create uuid data s
     = let l := SpendingLimit.new uuid (SpendingLimit.o_userId data)
                  (SpendingLimit.o_monthlyLimit data) (SpendingLimit.o_month data)
                  (SpendingLimit.o_year data) in
       (inr l, InMemorySpendingLimitRepository.Build
                 (InMemorySpendingLimitRepository.limits s ++ [l])))
  ∧ (∀ uuid1 uuid2 limit1 limit2,
       let first := SpendingLimit.new uuid1 userId limit1 month year in
       let second := SpendingLimit.new uuid2 userId limit2 month year in
       ∃ s1 s2,
         InMemorySpendingLimitRepository.create uuid1
           (SpendingLimit.OmitId userId limit1 month year) s = (inr first, s1)
         ∧ InMemorySpendingLimitRepository.create uuid2
             (SpendingLimit.OmitId userId limit2 month year) s1 = (inr second, s2)
         ∧ InMemorySpendingLimitRepository.limits s2
           = InMemorySpendingLimitRepository.limits s ++ [first; second])
  ∧ (∃ found,
       InMemorySpendingLimitRepository.findByUserAndMonth userId month year s
       = (inr found, s)
       ∧ (∀ l, found = Some l ↔
               ∃ before after,
                 InMemorySpendingLimitRepository.limits s = before ++ l :: after
                 ∧ Spec.limit_for userId month year l
                 ∧ ∀ x, x ∈ before → ¬ Spec.limit_for userId month year x)
       ∧ (found = None ↔
          ∀ x, x ∈ InMemorySpendingLimitRepository.limits s →
               ¬ Spec.limit_for userId month year x)
       ∧ (∀ l uuid data,
            found = Some l →
            resolved (InMemorySpendingLimitRepository.findByUserAndMonth userId month year
                        (state_after (InMemorySpendingLimitRepository.create uuid data s)))
            = Some (Some l))).
Proof.
  destruct s as [ls]. split_and!.
  - reflexivity.
  - intros. eexists _, _. split; [settle; reflexivity|]. split; [settle; reflexivity|].
    cbn. unfold Array.push. by rewrite <- app_assoc.
  - exists (Array.find (InMemorySpendingLimitRepository.for_key userId month year) ls).
    split; [reflexivity|]. cbn. split_and!.
    + intros l. rewrite find_first. setoid_rewrite for_key_spec.
      split; intros (b & a & Hl & Hk & Hb); exists b, a; (split_and!; [done..|]);
        intros x Hx; apply for_key_not; auto.
    + rewrite find_null. split; intros H x Hx; apply for_key_not; auto.
    + intros l uuid data Hl. settle. f_equal. f_equal. by apply find_push_found.
Qed.

(** ** End to end *)

(** Through [SpendingLimitController_by_class], no request ever writes to
    the repository provided as [SPENDING_LIMIT_REPOSITORY]. *)
Lemma by_class_leaves_token_repository (reqs : list Http.Request) (app : AppModule.t) :
  AppModule.SPENDING_LIMIT_REPOSITORY (Http.serve Http.limits_by_class reqs app)
  = AppModule.SPENDING_LIMIT_REPOSITORY app.
Proof.
  revert app. induction reqs as [|req reqs IH]; intros app; [reflexivity|].
  change (Http.serve Http.limits_by_class (req :: reqs) app)
    with (Http.serve Http.limits_by_class reqs (Http.handle Http.limits_by_class req app).2).
  rewrite IH. destruct app as [[es] [ls] [lc]].
  destruct req as [uuid body|u m y|u m y|uuid body]; [reflexivity..| |reflexivity].
  unfold Http.handle, Http.respond, ExpenseController.getSummary.
  rewrite execute_unfold. cbv zeta.
  by destruct (Array.find _ _).
Qed.

(** The scenario "limit 1000 for (user-123, 1, 2025), expenses totalling
    600 in that month, then GET /expenses/summary" under each version of
    [SpendingLimitController]: the version that takes the repository by class
    stores the limit where no summary reads it; the version
    [app.module.ts] imports, which takes the [SPENDING_LIMIT_REPOSITORY]
    provider, reports the limit. *)
Remark summary_under_each_controller_version :
  Scenario.summary_response Http.limits_by_class
  = Http.Reply 200 (Some (Http.summary_json (Summary 600 None None None)))
  ∧ (∀ reqs userId month year,
       ∃ total,
         (Http.handle Http.limits_by_class (Http.GET_expenses_summary userId month year)
            (Http.serve Http.limits_by_class reqs AppModule.init)).1
         = Http.Reply 200 (Some (Http.summary_json (Summary total None None None))))
  ∧ Scenario.summary_response Http.limits_by_token
    = Http.Reply 200
        (Some (Http.summary_json (Summary 600 (Some 1000) (Some 400) (Some 60))))%float.
Proof.
  split_and!; [reflexivity| |reflexivity].
  intros reqs userId month year. eexists.
  unfold Http.handle, Http.respond, ExpenseController.getSummary.
  rewrite execute_unfold. cbv zeta.
  rewrite by_class_leaves_token_repository. reflexivity.
Qed.

(** ** The definitions at work *)

(** January and February expenses, one of them deleted again: the January
    query finds the surviving January expense alone. *)
Example findByMonth_after_calls :
  let x (a : number) (d : Date) := Expense.OmitId a "" "Food" d Scenario.user in
  resolved
    (InMemoryExpenseRepository.findByMonth Scenario.user 1 2025
       (History.reach
          [ History.Create "e1" (x 100%float (Local_Date 2025 January 15));
            History.Create "e2" (x 42%float (Local_Date 2025 February 3));
            History.Create "e3" (x 200%float (Local_Date 2025 January 20));
            History.Create "e4" (x 7%float Invalid_Date);
            History.Delete "e1" ]))
  = Some [Expense.new "e3" 200 "" "Food" (Local_Date 2025 January 20) Scenario.user].
Proof. reflexivity. Qed.

(** A second limit for the same month does not replace the first: the
    summary keeps using the limit of 1000. *)
Example second_limit_is_ignored :
  (Http.handle Http.limits_by_token Scenario.summary_request
     (Http.serve Http.limits_by_token
        [ Http.POST_spending_limits "limit-2" (SpendingLimit.OmitId Scenario.user 5000 1 2025) ]
        (Scenario.app Http.limits_by_token))).1
  = Http.Reply 200
      (Some (Http.summary_json (Summary 600 (Some 1000) (Some 400) (Some 60))))%float.
Proof. reflexivity. Qed.

(** * Further properties of the code *)

(** ** The expense store: queries and writes together *)

Lemma find_skip {A} (f : A → bool) (before l : list A) :
  (∀ y, y ∈ before → f y = false) → Array.find f (before ++ l) = Array.find f l.
Proof.
  unfold Array.find. induction before as [|a before IH]; intros H; [done|].
  simpl. rewrite (H a) by left. apply IH. intros y Hy. apply H. by right.
Qed.

Lemma find_push_absent {A} (f : A → bool) (l : list A) (y : A) :
  Array.find f l = None →
  Array.find f (Array.push y l) = if f y then Some y else None.
Proof.
  intros H. unfold Array.push. rewrite find_skip by by apply find_null.
  unfold Array.find. simpl. by destruct (f y).
Qed.

Lemma filter_push {A} (f : A → bool) (l : list A) (y : A) :
  Array.filter f (Array.push y l) = Array.filter f l ++ (if f y then [y] else []).
Proof.
  unfold Array.filter, Array.push. rewrite List.filter_app. simpl. by destruct (f y).
Qed.

(** X1. In every state of the store reached by [create] and [delete] calls,
    [findAll(U)] resolves with exactly the expenses of user [U] that were
    inserted and not deleted afterwards, in insertion order: as many as there
    are such expenses, none of another user. *)
Theorem findAll_exact (calls : list History.Call) (userId : string) :
  let s := History.reach calls in
  let mine := Array.filter (λ e, String.eqb (Expense.userId e) userId) (Spec.stored calls) in
  InMemoryExpenseRepository.findAll userId s = (inr mine, s)
  ∧ (∀ e, e ∈ mine ↔ e ∈ Spec.stored calls ∧ Expense.userId e = userId)
  ∧ mine `sublist_of` Spec.stored calls
  ∧ (length mine ≤ length (Spec.stored calls))%nat.
Proof.
  intros s mine. pose proof (reach_stored calls) as Hs. fold s in Hs. split_and!.
  - settle. by rewrite Hs.
  - intros e. unfold mine. by rewrite filter_elem, String.eqb_eq.
  - apply filter_sublist.
  - apply sublist_length, filter_sublist.
Qed.

Lemma findById_effect (id : string) (s : InMemoryExpenseRepository.t) :
  InMemoryExpenseRepository.findById id s
  = (inr (Array.find (λ e, String.eqb (Expense.id e) id)
            (InMemoryExpenseRepository.expenses s)), s).
Proof. reflexivity. Qed.

Lemma findAll_effect (userId : string) (s : InMemoryExpenseRepository.t) :
  InMemoryExpenseRepository.findAll userId s
  = (inr (Array.filter (λ e, String.eqb (Expense.userId e) userId)
            (InMemoryExpenseRepository.expenses s)), s).
Proof. reflexivity. Qed.

Lemma findByMonth_effect (userId : string) (month year : number)
    (s : InMemoryExpenseRepository.t) :
  InMemoryExpenseRepository.findByMonth userId month year s
  = (inr (Array.filter (InMemoryExpenseRepository.in_month userId month year)
            (InMemoryExpenseRepository.expenses s)), s).
Proof. reflexivity. Qed.

Lemma resolved_inr {S A} (a : A) (s : S) : resolved (inr a, s) = Some a.
Proof. reflexivity. Qed.

Lemma create_state (uuid : string) (x : Expense.omit_id) (s : InMemoryExpenseRepository.t) :
  InMemoryExpenseRepository.expenses (state_after (InMemoryExpenseRepository.create uuid x s))
  = Array.push
      (Expense.new uuid (Expense.o_amount x) (Expense.o_description x)
         (Expense.o_category x) (Expense.o_date x) (Expense.o_userId x))
      (InMemoryExpenseRepository.expenses s).
Proof. reflexivity. Qed.

(** X2. Insert, then look up: [create] under an identifier that no stored
    expense has resolves with an expense carrying that identifier and the
    given fields, and [findById] of the identifier then resolves with that
    very expense; [findById] of any other identifier answers as before. *)
Theorem create_then_findById
    (s : InMemoryExpenseRepository.t) (uuid : string) (x : Expense.omit_id) :
  (∀ e, e ∈ InMemoryExpenseRepository.expenses s → Expense.id e ≠ uuid) →
  ∃ e s',
    InMemoryExpenseRepository.create uuid x s = (inr e, s')
    ∧ e = Expense.new uuid (Expense.o_amount x) (Expense.o_description x)
            (Expense.o_category x) (Expense.o_date x) (Expense.o_userId x)
    ∧ InMemoryExpenseRepository.findById uuid s' = (inr (Some e), s')
    ∧ (∀ id, id ≠ uuid →
             resolved (InMemoryExpenseRepository.findById id s')
             = resolved (InMemoryExpenseRepository.findById id s)).
Proof.
  intros Hfresh. eexists _, _. split; [apply create_effect|]. cbv zeta.
  split; [reflexivity|]. rewrite !findById_effect.
  cbn [InMemoryExpenseRepository.expenses].
  change (?l ++ [?e]) with (Array.push e l). split.
  - f_equal. f_equal. rewrite find_push_absent.
    + cbn. by rewrite String.eqb_refl.
    + apply find_null. intros e He. apply String.eqb_neq. by apply Hfresh.
  - intros id Hid. rewrite !findById_effect, !resolved_inr. f_equal.
    cbn [InMemoryExpenseRepository.expenses].
    destruct (Array.find (λ e, String.eqb (Expense.id e) id)
                (InMemoryExpenseRepository.expenses s)) as [e|] eqn:E.
    + by apply find_push_found.
    + rewrite find_push_absent by done. cbn.
      apply String.eqb_neq in Hid. by rewrite String.eqb_sym, Hid.
Qed.

Lemma create_then_findById_witness :
  let s := InMemoryExpenseRepository.Build [Scenario.expense_a] in
  let x := Expense.OmitId 42 "Expense C" "Food" (Local_Date 2025 February 3) Scenario.user in
  (∀ e, e ∈ InMemoryExpenseRepository.expenses s → Expense.id e ≠ "expense-c")
  ∧ ∃ e s',
      InMemoryExpenseRepository.create "expense-c" x s = (inr e, s')
      ∧ InMemoryExpenseRepository.findById "expense-c" s' = (inr (Some e), s').
Proof.
  intros s x.
  assert (∀ e, e ∈ InMemoryExpenseRepository.expenses s → Expense.id e ≠ "expense-c") as H.
  { intros e He. cbn in He. rewrite !elem_of_cons in He.
    destruct He as [->|He]; [discriminate|inversion He]. }
  split; [exact H|].
  destruct (create_then_findById s "expense-c" x H) as (e & s' & Hc & _ & Hf & _).
  exists e, s'. split; [exact Hc | exact Hf].
Defined.

(** X3. [create] never disturbs what was stored: whatever the identifier,
    every expense [findById] found is still found, and [findAll] and
    [findByMonth] answer as before, followed by the new expense when it is the
    user's (and falls in the month). *)
Theorem create_extends_queries
    (s : InMemoryExpenseRepository.t) (uuid : string) (x : Expense.omit_id) :
  let e := Expense.new uuid (Expense.o_amount x) (Expense.o_description x)
             (Expense.o_category x) (Expense.o_date x) (Expense.o_userId x) in
  let s' := state_after (InMemoryExpenseRepository.create uuid x s) in
  (∀ id found,
     resolved (InMemoryExpenseRepository.findById id s) = Some (Some found) →
     resolved (InMemoryExpenseRepository.findById id s') = Some (Some found))
  ∧ (∀ userId all,
       resolved (InMemoryExpenseRepository.findAll userId s) = Some all →
       resolved (InMemoryExpenseRepository.findAll userId s')
       = Some (all ++ if String.eqb (Expense.userId e) userId then [e] else []))
  ∧ (∀ userId month year found,
       resolved (InMemoryExpenseRepository.findByMonth userId month year s) = Some found →
       (Spec.in_calendar_month userId month year e →
        resolved (InMemoryExpenseRepository.findByMonth userId month year s')
        = Some (found ++ [e]))
       ∧ (¬ Spec.in_calendar_month userId month year e →
          resolved (InMemoryExpenseRepository.findByMonth userId month year s')
          = Some found)).
Proof.
  intros e s'. pose proof (create_state uuid x s) as Hs'. fold e s' in Hs'. split_and!.
  - intros id found. rewrite !findById_effect, !resolved_inr, Hs'. intros [= H].
    f_equal. f_equal. by apply find_push_found.
  - intros userId all. rewrite !findAll_effect, !resolved_inr, Hs'. intros [= <-].
    by rewrite filter_push.
  - intros userId month year found.
    rewrite !findByMonth_effect, !resolved_inr, Hs', filter_push. intros [= <-].
    split; intros H.
    + apply in_month_spec in H. by rewrite H.
    + destruct (InMemoryExpenseRepository.in_month userId month year e) eqn:E.
      * by apply in_month_spec in E.
      * by rewrite app_nil_r.
Qed.

(** X4. [findByMonth(U, M, Y)] is [findAll(U)] restricted to the calendar
    month: every expense it finds is one [findAll(U)] finds, in the same
    order, and an expense of [findAll(U)] is found exactly when its date falls
    in month [M] of year [Y]. *)
Theorem findByMonth_within_findAll
    (s : InMemoryExpenseRepository.t) (userId : string) (month year : number) :
  ∃ all found,
    InMemoryExpenseRepository.findAll userId s = (inr all, s)
    ∧ InMemoryExpenseRepository.findByMonth userId month year s = (inr found, s)
    ∧ found `sublist_of` all
    ∧ (∀ e, e ∈ found ↔ e ∈ all ∧ Spec.in_calendar_month userId month year e).
Proof.
  eexists _, _. split; [apply findAll_effect|]. split; [apply findByMonth_effect|].
  split.
  - induction (InMemoryExpenseRepository.expenses s) as [|a es IH]; [constructor|].
    cbn. unfold InMemoryExpenseRepository.in_month at 1.
    destruct (String.eqb (Expense.userId a) userId); cbn.
    + case_match; by constructor.
    + done.
  - intros e. rewrite !filter_elem, in_month_spec.
    unfold Spec.in_calendar_month. rewrite String.eqb_eq. tauto.
Qed.

(** [update] on a present id, with the store split at the expense it
    rewrites. *)
Lemma update_decomposed
    (s : InMemoryExpenseRepository.t) (id : string) (partial : Expense.partial) :
  (∃ e, e ∈ InMemoryExpenseRepository.expenses s ∧ Expense.id e = id) →
  ∃ before current after,
    InMemoryExpenseRepository.expenses s = before ++ current :: after
    ∧ Expense.id current = id
    ∧ (∀ e, e ∈ before → Expense.id e ≠ id)
    ∧ let updated :=
        Expense.new id
          (Expense.p_amount partial ?? Expense.amount current)
          (Expense.p_description partial ?? Expense.description current)
          (Expense.p_category partial ?? Expense.category current)
          (Expense.p_date partial ?? Expense.date current)
          (Expense.p_userId partial ?? Expense.userId current) in
      InMemoryExpenseRepository.update id partial s
      = (inr updated, InMemoryExpenseRepository.Build (before ++ updated :: after)).
Proof.
  intros H. destruct (update_present s id partial H) as (i & current & Hi & Hid & Hfirst & Hrun).
  exists (take i (InMemoryExpenseRepository.expenses s)), current,
    (drop (S i) (InMemoryExpenseRepository.expenses s)).
  split_and!.
  - symmetry. by apply take_drop_middle.
  - exact Hid.
  - intros e (j & He & Hj)%elem_of_take. by apply (Hfirst j e).
  - cbv zeta in *. rewrite Hrun. f_equal. f_equal.
    apply insert_take_drop. by eapply lookup_lt_Some.
Qed.

Lemma find_at_first {A} (f : A → bool) (before after : list A) (x : A) :
  (∀ y, y ∈ before → f y = false) → f x = true →
  Array.find f (before ++ x :: after) = Some x.
Proof. intros Hb Hx. rewrite find_skip by done. unfold Array.find. cbn. by rewrite Hx. Qed.

Lemma find_replace_other {A} (f : A → bool) (before after : list A) (x y : A) :
  f x = false → f y = false →
  Array.find f (before ++ y :: after) = Array.find f (before ++ x :: after).
Proof.
  intros Hx Hy. unfold Array.find. induction before as [|a before IH]; cbn.
  - by rewrite Hx, Hy.
  - by destruct (f a).
Qed.

(** X5. Update, then look up: after [update(id, partial)] on a stored id,
    [findById(id)] resolves with the expense that [update] returned, and
    [findById] of any other id answers as before; the store keeps its length
    and holds the same ids in the same order. *)
Theorem update_then_findById
    (s : InMemoryExpenseRepository.t) (id : string) (partial : Expense.partial) :
  (∃ e, e ∈ InMemoryExpenseRepository.expenses s ∧ Expense.id e = id) →
  ∃ updated s',
    InMemoryExpenseRepository.update id partial s = (inr updated, s')
    ∧ InMemoryExpenseRepository.findById id s' = (inr (Some updated), s')
    ∧ (∀ id', id' ≠ id →
              resolved (InMemoryExpenseRepository.findById id' s')
              = resolved (InMemoryExpenseRepository.findById id' s))
    ∧ Session.ids s' = Session.ids s
    ∧ length (InMemoryExpenseRepository.expenses s')
      = length (InMemoryExpenseRepository.expenses s).
Proof.
  intros H.
  destruct (update_decomposed s id partial H) as (before & current & after & Hs & Hid & Hb & Hrun).
  cbv zeta in Hrun. eexists _, _. split; [exact Hrun|].
  rewrite !findById_effect. cbn [InMemoryExpenseRepository.expenses]. split_and!.
  - f_equal. f_equal. apply find_at_first.
    + intros y Hy. apply String.eqb_neq. by apply Hb.
    + apply String.eqb_refl.
  - intros id' Hid'. rewrite !findById_effect, !resolved_inr, Hs. f_equal.
    cbn [InMemoryExpenseRepository.expenses].
    apply find_replace_other; cbn; apply String.eqb_neq; congruence.
  - unfold Session.ids. cbn [InMemoryExpenseRepository.expenses].
    rewrite Hs, !map_app. cbn. by rewrite Hid.
  - rewrite Hs, !length_app. reflexivity.
Qed.

Lemma update_then_findById_witness :
  let s := InMemoryExpenseRepository.Build [Scenario.expense_a; Scenario.expense_b] in
  let partial := Expense.Partial None (Some 75%float) None (Some "Leisure") None None in
  (∃ e, e ∈ InMemoryExpenseRepository.expenses s ∧ Expense.id e = "expense-b")
  ∧ ∃ updated s',
      InMemoryExpenseRepository.update "expense-b" partial s = (inr updated, s')
      ∧ InMemoryExpenseRepository.findById "expense-b" s' = (inr (Some updated), s')
      ∧ Session.ids s' = Session.ids s.
Proof.
  intros s partial.
  assert (∃ e, e ∈ InMemoryExpenseRepository.expenses s ∧ Expense.id e = "expense-b") as H.
  { exists Scenario.expense_b. split; [|reflexivity]. right. left. }
  split; [exact H|].
  destruct (update_then_findById s "expense-b" partial H) as (u & s' & Hu & Hf & _ & Hids & _).
  exists u, s'. split; [exact Hu|]. split; [exact Hf | exact Hids].
Defined.

(** A list splits in one way only at its first element with a property. *)
Lemma first_split_unique {A} (P : A → Prop) (b1 : list A) (x1 : A) (a1 : list A)
    (b2 : list A) (x2 : A) (a2 : list A) :
  b1 ++ x1 :: a1 = b2 ++ x2 :: a2 →
  P x1 → (∀ y, y ∈ b1 → ¬ P y) → P x2 → (∀ y, y ∈ b2 → ¬ P y) →
  b1 = b2 ∧ x1 = x2 ∧ a1 = a2.
Proof.
  revert b2. induction b1 as [|b b1 IH]; intros [|b' b2] Heq H1 Hb1 H2 Hb2;
    simplify_eq/=.
  - done.
  - exfalso. by apply (Hb2 b'); [left|].
  - exfalso. by apply (Hb1 x2); [left|].
  - destruct (IH b2) as (-> & -> & ->); try done.
    + intros y Hy. apply Hb1. by right.
    + intros y Hy. apply Hb2. by right.
Qed.

Lemma nullish_twice {A} (named : option A) (before : A) :
  (named ?? (named ?? before)) = (named ?? before).
Proof. by destruct named. Qed.

(** X6. [update] is idempotent: repeating an [update(id, partial)] that
    resolved resolves again with the same expense and leaves the store as the
    first call left it. *)
Theorem update_twice
    (s : InMemoryExpenseRepository.t) (id : string) (partial : Expense.partial)
    (updated : Expense) (s' : InMemoryExpenseRepository.t) :
  InMemoryExpenseRepository.update id partial s = (inr updated, s') →
  InMemoryExpenseRepository.update id partial s' = (inr updated, s').
Proof.
  intros Hrun. destruct (present_or_absent s id) as [H|H];
    [|by rewrite (update_absent s id partial H) in Hrun].
  destruct (update_decomposed s id partial H) as (before & current & after & Hs & Hid & Hb & Hrun').
  cbv zeta in Hrun'. rewrite Hrun' in Hrun. injection Hrun as <- <-.
  set (u := Expense.new id _ _ _ _ _) in *.
  assert (∃ e, e ∈ before ++ u :: after ∧ Expense.id e = id) as H'.
  { exists u. split; [|done]. apply elem_of_app. right. left. }
  destruct (update_decomposed (InMemoryExpenseRepository.Build (before ++ u :: after))
              id partial H') as (b2 & c2 & a2 & Hs2 & Hid2 & Hb2 & Hrun2).
  cbn [InMemoryExpenseRepository.expenses] in Hs2.
  destruct (first_split_unique (λ e, Expense.id e = id) b2 c2 a2 before u after)
    as (-> & -> & ->); [done..|].
  cbv zeta in Hrun2. rewrite Hrun2. unfold u. cbn. by rewrite !nullish_twice.
Qed.

Lemma update_twice_witness :
  let s := InMemoryExpenseRepository.Build [Scenario.expense_a; Scenario.expense_b] in
  let partial := Expense.Partial None (Some 75%float) None None None None in
  let updated := Expense.new "expense-a" 75 "Expense A" "Food"
                   (Local_Date 2025 January 10) Scenario.user in
  let s' := InMemoryExpenseRepository.Build [updated; Scenario.expense_b] in
  InMemoryExpenseRepository.update "expense-a" partial s = (inr updated, s')
  ∧ InMemoryExpenseRepository.update "expense-a" partial s' = (inr updated, s').
Proof.
  intros s partial updated s'. split; [reflexivity|].
  exact (update_twice s "expense-a" partial updated s' eq_refl).
Defined.

(** X7. An [update] whose partial names no field (every field absent, or
    only [id]) rewrites nothing: on a stored id it resolves with the stored
    expense itself and the store is what it was. *)
Theorem update_without_fields
    (s : InMemoryExpenseRepository.t) (id : string) (other_id : option string) :
  (∃ e, e ∈ InMemoryExpenseRepository.expenses s ∧ Expense.id e = id) →
  ∃ current,
    InMemoryExpenseRepository.findById id s = (inr (Some current), s)
    ∧ InMemoryExpenseRepository.update id
        (Expense.Partial other_id None None None None None) s
      = (inr current, s).
Proof.
  intros H.
  destruct (update_decomposed s id (Expense.Partial other_id None None None None None) H)
    as (before & current & after & Hs & Hid & Hb & Hrun).
  cbv zeta in Hrun. cbn in Hrun. exists current. split.
  - rewrite findById_effect, Hs. f_equal. f_equal. apply find_at_first.
    + intros y Hy. apply String.eqb_neq. by apply Hb.
    + by apply String.eqb_eq.
  - rewrite Hrun. destruct current as [i a d c dt u]. cbn in Hid. subst i.
    destruct s as [es]. cbn in Hs. by rewrite Hs.
Qed.

Lemma update_without_fields_witness :
  let s := InMemoryExpenseRepository.Build [Scenario.expense_a; Scenario.expense_b] in
  (∃ e, e ∈ InMemoryExpenseRepository.expenses s ∧ Expense.id e = "expense-b")
  ∧ ∃ current,
      InMemoryExpenseRepository.findById "expense-b" s = (inr (Some current), s)
      ∧ InMemoryExpenseRepository.update "expense-b"
          (Expense.Partial (Some "another-id") None None None None None) s
        = (inr current, s).
Proof.
  intros s.
  assert (∃ e, e ∈ InMemoryExpenseRepository.expenses s ∧ Expense.id e = "expense-b") as H.
  { exists Scenario.expense_b. split; [|reflexivity]. right. left. }
  split; [exact H|].
  exact (update_without_fields s "expense-b" (Some "another-id") H).
Defined.

(** ** The expense store: identifiers *)

Lemma map_sublist {A B} (f : A → B) (l k : list A) :
  l `sublist_of` k → map f l `sublist_of` map f k.
Proof. induction 1; cbn; by constructor. Qed.

Lemma ids_after_call (c : Session.Call) (s : InMemoryExpenseRepository.t) :
  match c with
  | Session.Create uuid _ => Session.ids (Session.call c s) = Session.ids s ++ [uuid]
  | Session.Update _ _ => Session.ids (Session.call c s) = Session.ids s
  | Session.Delete _ => Session.ids (Session.call c s) `sublist_of` Session.ids s
  end.
Proof.
  destruct c as [uuid x|id partial|id]; unfold Session.call, Session.ids.
  - rewrite create_state. unfold Array.push. by rewrite map_app.
  - destruct (present_or_absent s id) as [H|H].
    + destruct (update_decomposed s id partial H) as (b & c & a & Hs & Hid & _ & Hrun).
      cbv zeta in Hrun. rewrite Hrun. unfold state_after. cbn [snd].
      cbn [InMemoryExpenseRepository.expenses]. rewrite Hs, !map_app. cbn. by rewrite Hid.
    + by rewrite (update_absent s id partial H).
  - rewrite delete_effect. apply map_sublist, filter_sublist.
Qed.

Lemma find_by_unique_id (l : list Expense) (e : Expense) :
  NoDup (map Expense.id l) → e ∈ l →
  Array.find (λ x, String.eqb (Expense.id x) (Expense.id e)) l = Some e.
Proof.
  unfold Array.find. induction l as [|a l IH]; intros Hnd He; [inversion He|].
  cbn in *. apply NoDup_cons in Hnd as [Ha Hnd].
  apply elem_of_cons in He as [->|He].
  - by rewrite String.eqb_refl.
  - destruct (String.eqb_spec (Expense.id a) (Expense.id e)) as [Heq|_]; [|by apply IH].
    exfalso. apply Ha. rewrite Heq. apply list_elem_of_In, in_map, list_elem_of_In, He.
Qed.

(** X8. As long as every [create] is handed an identifier that no stored
    expense has, no sequence of [create], [update] and [delete] calls ever
    leaves two stored expenses with the same id; and then every stored
    expense is the one [findById] resolves with for its id. *)
Theorem ids_stay_unique (calls : list Session.Call) (s : InMemoryExpenseRepository.t) :
  NoDup (Session.ids s) →
  Session.fresh_uuids calls s →
  let s' := Session.run calls s in
  NoDup (Session.ids s')
  ∧ ∀ e, e ∈ InMemoryExpenseRepository.expenses s' →
         InMemoryExpenseRepository.findById (Expense.id e) s' = (inr (Some e), s').
Proof.
  intros Hnd Hfresh s'.
  assert (NoDup (Session.ids s')) as Hnd'.
  { unfold s'. clear s'. revert s Hnd Hfresh.
    induction calls as [|c calls IH]; intros s Hnd Hfresh; [done|].
    destruct Hfresh as [Hc Hfresh].
    change (Session.run (c :: calls) s) with (Session.run calls (Session.call c s)).
    apply IH; [|done]. pose proof (ids_after_call c s) as Hids.
    destruct c as [uuid x|id partial|id].
    - rewrite Hids. apply NoDup_app. split_and!; [done| |apply NoDup_singleton].
      intros i Hi ->%list_elem_of_singleton. done.
    - by rewrite Hids.
    - by eapply sublist_NoDup. }
  split; [done|]. intros e He. rewrite findById_effect. f_equal. f_equal.
  by apply find_by_unique_id.
Qed.

Lemma ids_stay_unique_witness :
  let calls :=
    [ Session.Create "e1" (Expense.OmitId 10 "a" "Food" (Local_Date 2025 January 1) "u");
      Session.Update "e1" (Expense.Partial None (Some 20%float) None None None None);
      Session.Create "e2" (Expense.OmitId 30 "b" "Food" (Local_Date 2025 January 2) "u");
      Session.Delete "e1";
      Session.Create "e1" (Expense.OmitId 40 "c" "Food" (Local_Date 2025 January 3) "u") ] in
  NoDup (Session.ids InMemoryExpenseRepository.new)
  ∧ Session.fresh_uuids calls InMemoryExpenseRepository.new
  ∧ NoDup (Session.ids (Session.run calls InMemoryExpenseRepository.new)).
Proof.
  intros calls.
  assert (NoDup (Session.ids InMemoryExpenseRepository.new)) as H0 by constructor.
  assert (Session.fresh_uuids calls InMemoryExpenseRepository.new) as H1.
  { cbn. repeat split;
      repeat (apply not_elem_of_cons; split; [discriminate|]); apply not_elem_of_nil. }
  split; [exact H0|]. split; [exact H1|].
  exact (proj1 (ids_stay_unique calls InMemoryExpenseRepository.new H0 H1)).
Defined.

(** ** The spending-limit store: update and delete *)

Section LimitStore.
Variable s : InMemorySpendingLimitRepository.t.
Variable id : string.

Local Abbreviation limit_has_id := (λ l : SpendingLimit, String.eqb (SpendingLimit.id l) id).

Lemma limit_absent_findIndex :
  (∀ l, l ∈ InMemorySpendingLimitRepository.limits s → SpendingLimit.id l ≠ id)
  ↔ Array.findIndex limit_has_id (InMemorySpendingLimitRepository.limits s) = (-1)%Z.
Proof.
  rewrite findIndex_absent. split; intros H l Hl; apply String.eqb_neq; auto.
Qed.

Lemma limit_update_absent (partial : SpendingLimit.partial) :
  (∀ l, l ∈ InMemorySpendingLimitRepository.limits s → SpendingLimit.id l ≠ id) →
  InMemorySpendingLimitRepository.update id partial s
  = (inl (Error "Spending limit not found"), s).
Proof.
  intros H. apply limit_absent_findIndex in H. settle. by rewrite H.
Qed.

Lemma limit_update_present (partial : SpendingLimit.partial) :
  (∃ l, l ∈ InMemorySpendingLimitRepository.limits s ∧ SpendingLimit.id l = id) →
  ∃ before current after,
    InMemorySpendingLimitRepository.limits s = before ++ current :: after
    ∧ SpendingLimit.id current = id
    ∧ (∀ l, l ∈ before → SpendingLimit.id l ≠ id)
    ∧ let updated :=
        SpendingLimit.new id
          (SpendingLimit.p_userId partial ?? SpendingLimit.userId current)
          (SpendingLimit.p_monthlyLimit partial ?? SpendingLimit.monthlyLimit current)
          (SpendingLimit.p_month partial ?? SpendingLimit.month current)
          (SpendingLimit.p_year partial ?? SpendingLimit.year current) in
      InMemorySpendingLimitRepository.update id partial s
      = (inr updated, InMemorySpendingLimitRepository.Build (before ++ updated :: after)).
Proof.
  intros (l & Hl & Hid).
  assert (Array.findIndex limit_has_id (InMemorySpendingLimitRepository.limits s) ≠ (-1)%Z)
    as Hi.
  { intros H. by apply (proj2 limit_absent_findIndex H l). }
  destruct (findIndex_present limit_has_id _ Hi) as (current & Hat & Hc & _ & Hfirst).
  set (i := Z.to_nat (Array.findIndex limit_has_id (InMemorySpendingLimitRepository.limits s)))
    in *.
  unfold Array.at_index in Hat. fold i in Hat.
  exists (take i (InMemorySpendingLimitRepository.limits s)), current,
    (drop (S i) (InMemorySpendingLimitRepository.limits s)).
  split_and!.
  - symmetry. by apply take_drop_middle.
  - by apply String.eqb_eq.
  - intros x (j & Hx & Hj)%elem_of_take. apply String.eqb_neq. by apply (Hfirst j x).
  - cbv zeta. settle. apply Z.eqb_neq in Hi. rewrite Hi.
    unfold Array.at_index. fold i. rewrite Hat. cbn. f_equal. f_equal.
    unfold Array.set_index. fold i. apply insert_take_drop. by eapply lookup_lt_Some.
Qed.

Lemma limit_present_or_absent :
  (∃ l, l ∈ InMemorySpendingLimitRepository.limits s ∧ SpendingLimit.id l = id)
  ∨ (∀ l, l ∈ InMemorySpendingLimitRepository.limits s → SpendingLimit.id l ≠ id).
Proof.
  destruct (Array.find limit_has_id (InMemorySpendingLimitRepository.limits s)) as [l|] eqn:E.
  - left. apply find_first in E as (b & a & Hl & He & _). exists l. split.
    + rewrite Hl. apply elem_of_app. right. by left.
    + by apply String.eqb_eq.
  - right. intros l Hl. apply String.eqb_neq.
    by apply (proj1 (find_null limit_has_id _) E).
Qed.
End LimitStore.

(** X9. [update] on the limit store: on a stored id it resolves with the
    first limit of that id rebuilt (the fields named in the partial replaced,
    the others kept, the id kept even when the partial names another) and
    writes it back in place, the limits around it untouched; on an id that no
    limit has it rejects with [Error('Spending limit not found')]; and
    whenever it rejects, the store is what it was. *)
Theorem limit_update_replaces_or_rejects
    (s : InMemorySpendingLimitRepository.t) (id : string) (partial : SpendingLimit.partial) :
  ((∃ l, l ∈ InMemorySpendingLimitRepository.limits s ∧ SpendingLimit.id l = id) →
   ∃ before current after updated,
     InMemorySpendingLimitRepository.limits s = before ++ current :: after
     ∧ SpendingLimit.id current = id
     ∧ (∀ l, l ∈ before → SpendingLimit.id l ≠ id)
     ∧ InMemorySpendingLimitRepository.update id partial s
       = (inr updated, InMemorySpendingLimitRepository.Build (before ++ updated :: after))
     ∧ SpendingLimit.id updated = id
     ∧ Spec.field_after (SpendingLimit.p_userId partial)
         (SpendingLimit.userId current) (SpendingLimit.userId updated)
     ∧ Spec.field_after (SpendingLimit.p_monthlyLimit partial)
         (SpendingLimit.monthlyLimit current) (SpendingLimit.monthlyLimit updated)
     ∧ Spec.field_after (SpendingLimit.p_month partial)
         (SpendingLimit.month current) (SpendingLimit.month updated)
     ∧ Spec.field_after (SpendingLimit.p_year partial)
         (SpendingLimit.year current) (SpendingLimit.year updated))
  ∧ ((∀ l, l ∈ InMemorySpendingLimitRepository.limits s → SpendingLimit.id l ≠ id) →
     InMemorySpendingLimitRepository.update id partial s
     = (inl (Error "Spending limit not found"), s))
  ∧ (∀ err, rejected (InMemorySpendingLimitRepository.update id partial s) = Some err →
            err = Error "Spending limit not found"
            ∧ state_after (InMemorySpendingLimitRepository.update id partial s) = s).
Proof.
  split_and!.
  - intros H.
    destruct (limit_update_present s id partial H) as (b & c & a & Hs & Hid & Hb & Hrun).
    cbv zeta in Hrun. eexists b, c, a, _.
    split; [exact Hs|]. split; [exact Hid|]. split; [exact Hb|]. split; [exact Hrun|].
    cbn. split_and!; [done|apply field_after_nullish..].
  - apply limit_update_absent.
  - intros err Herr. destruct (limit_present_or_absent s id) as [H|H].
    + destruct (limit_update_present s id partial H) as (b & c & a & _ & _ & _ & Hrun).
      cbv zeta in Hrun. rewrite Hrun in Herr. discriminate.
    + rewrite (limit_update_absent s id partial H) in *. by injection Herr as <-.
Qed.

Lemma limit_update_replaces_or_rejects_witness :
  let s := InMemorySpendingLimitRepository.Build [Scenario.zero_limit; Scenario.limit] in
  let partial := SpendingLimit.Partial (Some "other") None (Some 1500%float) None None in
  (∃ l, l ∈ InMemorySpendingLimitRepository.limits s ∧ SpendingLimit.id l = "limit-1")
  ∧ (∀ l, l ∈ InMemorySpendingLimitRepository.limits s → SpendingLimit.id l ≠ "limit-9")
  ∧ InMemorySpendingLimitRepository.update "limit-1" partial s
    = (inr (SpendingLimit.new "limit-1" Scenario.user 1500 1 2025),
       InMemorySpendingLimitRepository.Build
         [Scenario.zero_limit; SpendingLimit.new "limit-1" Scenario.user 1500 1 2025])
  ∧ InMemorySpendingLimitRepository.update "limit-9" partial s
    = (inl (Error "Spending limit not found"), s).
Proof.
  intros s partial.
  assert (∀ l, l ∈ InMemorySpendingLimitRepository.limits s → SpendingLimit.id l ≠ "limit-9")
    as Habsent.
  { intros l Hl. cbn in Hl. rewrite !elem_of_cons in Hl.
    destruct Hl as [->|[->|Hl]]; [discriminate..|inversion Hl]. }
  split; [exists Scenario.limit; split; [right; left|reflexivity]|].
  split; [exact Habsent|]. split; [reflexivity|].
  exact (proj1 (proj2 (limit_update_replaces_or_rejects s "limit-9" partial)) Habsent).
Defined.

Lemma find_filter_keep {A} (f g : A → bool) (l : list A) (x : A) :
  Array.find f l = Some x → g x = true → Array.find f (Array.filter g l) = Some x.
Proof.
  unfold Array.find, Array.filter. induction l as [|a l IH]; cbn; [discriminate|].
  destruct (f a) eqn:Ha.
  - intros [= ->] Hg. rewrite Hg. cbn. by rewrite Ha.
  - intros Hx Hg. destruct (g a); cbn; rewrite ?Ha; by apply IH.
Qed.

Lemma limit_delete_effect (id : string) (s : InMemorySpendingLimitRepository.t) :
  InMemorySpendingLimitRepository.delete id s
  = (inr tt,
     InMemorySpendingLimitRepository.Build
       (Array.filter (λ l, negb (String.eqb (SpendingLimit.id l) id))
          (InMemorySpendingLimitRepository.limits s))).
Proof. reflexivity. Qed.

Lemma lookup_effect (userId : string) (month year : number)
    (s : InMemorySpendingLimitRepository.t) :
  InMemorySpendingLimitRepository.findByUserAndMonth userId month year s
  = (inr (Array.find (InMemorySpendingLimitRepository.for_key userId month year)
            (InMemorySpendingLimitRepository.limits s)), s).
Proof. reflexivity. Qed.

(** X10. [delete] on the limit store always resolves and removes exactly
    the limits with the given id.  A lookup afterwards never finds a limit
    with that id, and a limit with another id that a lookup found before is
    still what the lookup finds. *)
Theorem limit_delete_then_lookup
    (s : InMemorySpendingLimitRepository.t) (id : string)
    (userId : string) (month year : number) :
  ∃ s',
    InMemorySpendingLimitRepository.delete id s = (inr tt, s')
    ∧ (∀ l, l ∈ InMemorySpendingLimitRepository.limits s'
            ↔ l ∈ InMemorySpendingLimitRepository.limits s ∧ SpendingLimit.id l ≠ id)
    ∧ (∀ found,
         resolved (InMemorySpendingLimitRepository.findByUserAndMonth userId month year s')
         = Some (Some found) →
         SpendingLimit.id found ≠ id)
    ∧ (∀ found,
         resolved (InMemorySpendingLimitRepository.findByUserAndMonth userId month year s)
         = Some (Some found) →
         SpendingLimit.id found ≠ id →
         resolved (InMemorySpendingLimitRepository.findByUserAndMonth userId month year s')
         = Some (Some found)).
Proof.
  eexists. split; [apply limit_delete_effect|].
  assert (∀ l, l ∈ Array.filter (λ l, negb (String.eqb (SpendingLimit.id l) id))
                     (InMemorySpendingLimitRepository.limits s)
               ↔ l ∈ InMemorySpendingLimitRepository.limits s ∧ SpendingLimit.id l ≠ id)
    as Hin by (intros l; by rewrite filter_elem, negb_true_iff, String.eqb_neq).
  split; [exact Hin|]. rewrite !lookup_effect, !resolved_inr.
  cbn [InMemorySpendingLimitRepository.limits]. split.
  - intros found [= (b & a & Hl & _)%find_first].
    apply (Hin found). rewrite Hl. apply elem_of_app. right. left.
  - intros found [= H] Hid. f_equal. f_equal. apply find_filter_keep; [done|].
    by rewrite negb_true_iff, String.eqb_neq.
Qed.

(** X11. With two limits stored for one key, the lookup resolves with the
    earlier one, and once the earlier one is deleted, with the later one. *)
Theorem limit_delete_exposes_next
    (s : InMemorySpendingLimitRepository.t) (userId : string) (month year : number)
    (before : list SpendingLimit) (first : SpendingLimit) (between : list SpendingLimit)
    (second : SpendingLimit) (after : list SpendingLimit) :
  InMemorySpendingLimitRepository.limits s
  = before ++ first :: between ++ second :: after →
  Spec.limit_for userId month year first →
  Spec.limit_for userId month year second →
  (∀ l, l ∈ before ++ between → ¬ Spec.limit_for userId month year l) →
  SpendingLimit.id second ≠ SpendingLimit.id first →
  resolved (InMemorySpendingLimitRepository.findByUserAndMonth userId month year s)
  = Some (Some first)
  ∧ resolved (InMemorySpendingLimitRepository.findByUserAndMonth userId month year
                (state_after (InMemorySpendingLimitRepository.delete
                                (SpendingLimit.id first) s)))
    = Some (Some second).
Proof.
  intros Hs H1 H2 Hnone Hid. rewrite limit_delete_effect. unfold state_after. cbn [snd].
  rewrite !lookup_effect, !resolved_inr. cbn [InMemorySpendingLimitRepository.limits].
  rewrite Hs. split; f_equal; f_equal.
  - apply find_at_first; [|by apply for_key_spec].
    intros l Hl. apply for_key_not, Hnone, elem_of_app. by left.
  - unfold Array.filter. rewrite List.filter_app. cbn [List.filter].
    rewrite String.eqb_refl. cbn [negb]. rewrite List.filter_app. cbn [List.filter].
    apply String.eqb_neq in Hid. rewrite Hid. cbn [negb].
    rewrite app_assoc. apply find_at_first; [|by apply for_key_spec].
    intros l [Hl|Hl]%elem_of_app; apply (filter_elem _ _ l) in Hl as [Hl _];
      apply for_key_not, Hnone, elem_of_app; auto.
Qed.

Lemma limit_delete_exposes_next_witness :
  let second := SpendingLimit.new "limit-2" Scenario.user 5000 1 2025 in
  let other := SpendingLimit.new "limit-3" Scenario.user 700 2 2025 in
  let s := InMemorySpendingLimitRepository.Build [Scenario.limit; other; second] in
  resolved (InMemorySpendingLimitRepository.findByUserAndMonth Scenario.user 1 2025 s)
  = Some (Some Scenario.limit)
  ∧ resolved (InMemorySpendingLimitRepository.findByUserAndMonth Scenario.user 1 2025
                (state_after (InMemorySpendingLimitRepository.delete "limit-1" s)))
    = Some (Some second).
Proof.
  intros second other s.
  apply (limit_delete_exposes_next s Scenario.user 1 2025 [] Scenario.limit [other] second []).
  - reflexivity.
  - by repeat split.
  - by repeat split.
  - intros l Hl. cbn in Hl. apply list_elem_of_singleton in Hl as ->.
    intros (_ & Hm & _). discriminate Hm.
  - discriminate.
Defined.

(** X12. Changing a limit through [update] is what the lookup then
    reports: updating the [monthlyLimit] of the limit a lookup resolves with
    (no earlier limit sharing its id) makes the same lookup resolve with that
    limit carrying the new amount, its key and id unchanged. *)
Theorem limit_update_seen_by_lookup
    (s : InMemorySpendingLimitRepository.t) (userId : string) (month year : number)
    (before : list SpendingLimit) (found : SpendingLimit) (after : list SpendingLimit)
    (amount : number) :
  InMemorySpendingLimitRepository.limits s = before ++ found :: after →
  Spec.limit_for userId month year found →
  (∀ l, l ∈ before → ¬ Spec.limit_for userId month year l) →
  (∀ l, l ∈ before → SpendingLimit.id l ≠ SpendingLimit.id found) →
  let raised :=
    SpendingLimit.new (SpendingLimit.id found) (SpendingLimit.userId found) amount
      (SpendingLimit.month found) (SpendingLimit.year found) in
  ∃ s',
    resolved (InMemorySpendingLimitRepository.findByUserAndMonth userId month year s)
    = Some (Some found)
    ∧ InMemorySpendingLimitRepository.update (SpendingLimit.id found)
        (SpendingLimit.Partial None None (Some amount) None None) s
      = (inr raised, s')
    ∧ InMemorySpendingLimitRepository.limits s' = before ++ raised :: after
    ∧ resolved (InMemorySpendingLimitRepository.findByUserAndMonth userId month year s')
      = Some (Some raised).
Proof.
  intros Hs Hkey Hnone Hids raised.
  assert (∀ l, l ∈ before →
               InMemorySpendingLimitRepository.for_key userId month year l = false) as Hb
    by (intros l Hl; by apply for_key_not, Hnone).
  destruct (limit_update_present s (SpendingLimit.id found)
              (SpendingLimit.Partial None None (Some amount) None None))
    as (b & c & a & Hs' & Hid & Hfirst & Hrun).
  { exists found. split; [|done]. rewrite Hs. apply elem_of_app. right. left. }
  rewrite Hs in Hs'.
  destruct (first_split_unique (λ l, SpendingLimit.id l = SpendingLimit.id found)
              before found after b c a) as (<- & <- & <-); [done..|].
  cbv zeta in Hrun. cbn in Hrun. fold raised in Hrun.
  eexists. split_and!.
  - rewrite lookup_effect, resolved_inr, Hs. f_equal. f_equal.
    apply find_at_first; [done|]. by apply for_key_spec.
  - exact Hrun.
  - reflexivity.
  - rewrite lookup_effect, resolved_inr. cbn [InMemorySpendingLimitRepository.limits].
    f_equal. f_equal. apply find_at_first; [done|]. by apply for_key_spec.
Qed.

Lemma limit_update_seen_by_lookup_witness :
  let s := InMemorySpendingLimitRepository.Build
             [SpendingLimit.new "limit-3" Scenario.user 700 2 2025; Scenario.limit] in
  let raised := SpendingLimit.new "limit-1" Scenario.user 1500 1 2025 in
  ∃ s',
    resolved (InMemorySpendingLimitRepository.findByUserAndMonth Scenario.user 1 2025 s)
    = Some (Some Scenario.limit)
    ∧ InMemorySpendingLimitRepository.update "limit-1"
        (SpendingLimit.Partial None None (Some 1500%float) None None) s
      = (inr raised, s')
    ∧ resolved (InMemorySpendingLimitRepository.findByUserAndMonth Scenario.user 1 2025 s')
      = Some (Some raised).
Proof.
  intros s raised.
  destruct (limit_update_seen_by_lookup s Scenario.user 1 2025
              [SpendingLimit.new "limit-3" Scenario.user 700 2 2025] Scenario.limit []
              1500%float) as (s' & H1 & H2 & _ & H4).
  - reflexivity.
  - by repeat split.
  - intros l Hl. apply list_elem_of_singleton in Hl as ->.
    intros (_ & Hm & _). discriminate Hm.
  - intros l Hl. apply list_elem_of_singleton in Hl as ->. discriminate.
  - exists s'. split; [exact H1|]. split; [exact H2 | exact H4].
Defined.

(** ** Use cases and endpoints *)

Lemma getMonthly_effect (app : AppModule.t) (userId : string) (month year : number) :
  GetMonthlyExpensesUseCase.execute userId month year app
  = (inr (Array.filter (InMemoryExpenseRepository.in_month userId month year)
            (InMemoryExpenseRepository.expenses (AppModule.EXPENSE_REPOSITORY app))), app).
Proof. by destruct app as [[es] ls lc]. Qed.

(** X13. The two read endpoints agree: for one application state and one
    query, the summary's [totalSpent] is the sum of the amounts of the
    expenses the monthly list returns; both resolve and leave every store as
    it was. *)
Theorem summary_total_is_sum_of_monthly_list
    (app : AppModule.t) (userId : string) (month year : number) :
  ∃ expenses summary,
    ExpenseController.getMonthly userId month year app = (inr expenses, app)
    ∧ ExpenseController.getSummary userId month year app = (inr summary, app)
    ∧ totalSpent summary = Spec.sum_of_amounts expenses.
Proof.
  unfold ExpenseController.getMonthly, ExpenseController.getSummary.
  rewrite getMonthly_effect, execute_unfold. cbv zeta.
  destruct (Array.find _ _); eexists _, _;
    (split; [reflexivity|]); (split; [reflexivity|]); cbn; apply total_is_sum.
Qed.

(** X14. The limit fields of a summary are null together or present
    together: all three are [null] exactly when no stored limit is for the key,
    and otherwise [spendingLimit] is the [monthlyLimit] of a stored limit for
    the key and the other two are numbers. *)
Theorem summary_limit_fields_together
    (app : AppModule.t) (userId : string) (month year : number) :
  ∃ summary,
    GetSpendingSummaryUseCase.execute userId month year app = (inr summary, app)
    ∧ ((spendingLimit summary = None ∧ remainingBudget summary = None
        ∧ percentageUsed summary = None
        ∧ ∀ l, l ∈ InMemorySpendingLimitRepository.limits
                     (AppModule.SPENDING_LIMIT_REPOSITORY app) →
               ¬ Spec.limit_for userId month year l)
       ∨ (∃ l r p,
            l ∈ InMemorySpendingLimitRepository.limits
                  (AppModule.SPENDING_LIMIT_REPOSITORY app)
            ∧ Spec.limit_for userId month year l
            ∧ spendingLimit summary = Some (SpendingLimit.monthlyLimit l)
            ∧ remainingBudget summary = Some r
            ∧ percentageUsed summary = Some p)).
Proof.
  rewrite execute_unfold. cbv zeta.
  destruct (Array.find _ _) as [l|] eqn:E; eexists; (split; [reflexivity|]); cbn.
  - right. apply find_first in E as (b & a & Hl & Hk & _). exists l. eexists _, _.
    split_and!; try reflexivity.
    + rewrite Hl. apply elem_of_app. right. left.
    + by apply for_key_spec.
  - left. split_and!; try reflexivity.
    intros l Hl. apply for_key_not. by apply (proj1 (find_null _ _) E).
Qed.

Lemma handle_GET_expenses (c : Http.Controllers) (app : AppModule.t)
    (userId : string) (month year : number) :
  Http.handle c (Http.GET_expenses userId month year) app
  = (Http.Reply 200
       (Some (Http.expenses_json
                (Array.filter (InMemoryExpenseRepository.in_month userId month year)
                   (InMemoryExpenseRepository.expenses (AppModule.EXPENSE_REPOSITORY app))))),
     app).
Proof.
  unfold Http.handle, Http.respond, ExpenseController.getMonthly.
  by rewrite getMonthly_effect.
Qed.

Lemma handle_GET_summary (c : Http.Controllers) (app : AppModule.t)
    (userId : string) (month year : number) :
  ∃ summary,
    GetSpendingSummaryUseCase.execute userId month year app = (inr summary, app)
    ∧ Http.handle c (Http.GET_expenses_summary userId month year) app
      = (Http.Reply 200 (Some (Http.summary_json summary)), app).
Proof.
  unfold Http.handle, Http.respond, ExpenseController.getSummary.
  rewrite execute_unfold. cbv zeta. destruct (Array.find _ _); eexists; by split.
Qed.

Lemma handle_POST_expenses (c : Http.Controllers) (app : AppModule.t)
    (uuid : string) (body : ExpenseController.body) :
  let e := Expense.new uuid (ExpenseController.amount body)
             (ExpenseController.description body) (ExpenseController.category body)
             (new_Date (ExpenseController.date body)) (ExpenseController.userId body) in
  Http.handle c (Http.POST_expenses uuid body) app
  = (Http.Reply 201 (Some (Http.expense_json e)),
     AppModule.Build
       (InMemoryExpenseRepository.Build
          (Array.push e (InMemoryExpenseRepository.expenses (AppModule.EXPENSE_REPOSITORY app))))
       (AppModule.SPENDING_LIMIT_REPOSITORY app)
       (AppModule.InMemorySpendingLimitRepository_class app)).
Proof. by destruct app as [[es] ls lc]. Qed.

(** X15. POST /expenses, then GET /expenses: the POST answers 201 with
    the expense built from the body and the generated id, and writes to the
    expense store alone; a monthly list asked afterwards is the list as it
    was, followed by the new expense when it belongs to the queried user and
    its date falls in the queried month, and unchanged otherwise. *)
Theorem post_expense_then_list
    (c : Http.Controllers) (app : AppModule.t) (uuid : string)
    (body : ExpenseController.body) (userId : string) (month year : number) :
  let e := Expense.new uuid (ExpenseController.amount body)
             (ExpenseController.description body) (ExpenseController.category body)
             (new_Date (ExpenseController.date body)) (ExpenseController.userId body) in
  let app' := (Http.handle c (Http.POST_expenses uuid body) app).2 in
  (Http.handle c (Http.POST_expenses uuid body) app).1
  = Http.Reply 201 (Some (Http.expense_json e))
  ∧ AppModule.SPENDING_LIMIT_REPOSITORY app' = AppModule.SPENDING_LIMIT_REPOSITORY app
  ∧ AppModule.InMemorySpendingLimitRepository_class app'
    = AppModule.InMemorySpendingLimitRepository_class app
  ∧ ∃ listed,
      (Http.handle c (Http.GET_expenses userId month year) app).1
      = Http.Reply 200 (Some (Http.expenses_json listed))
      ∧ (Spec.in_calendar_month userId month year e →
         (Http.handle c (Http.GET_expenses userId month year) app').1
         = Http.Reply 200 (Some (Http.expenses_json (listed ++ [e]))))
      ∧ (¬ Spec.in_calendar_month userId month year e →
         (Http.handle c (Http.GET_expenses userId month year) app').1
         = Http.Reply 200 (Some (Http.expenses_json listed))).
Proof.
  intros e app'. unfold app'. rewrite handle_POST_expenses. cbv zeta. fold e.
  cbn [fst snd AppModule.SPENDING_LIMIT_REPOSITORY
       AppModule.InMemorySpendingLimitRepository_class].
  split_and!; try reflexivity.
  eexists. rewrite !handle_GET_expenses.
  cbn [fst AppModule.EXPENSE_REPOSITORY InMemoryExpenseRepository.expenses].
  split; [reflexivity|]. rewrite filter_push. split; intros H.
  - apply in_month_spec in H. by rewrite H.
  - destruct (InMemoryExpenseRepository.in_month userId month year e) eqn:E.
    + by apply in_month_spec in E.
    + by rewrite app_nil_r.
Qed.

(** X16. POST /expenses, then the summary: when the new expense belongs
    to the queried user and month, [totalSpent] grows by exactly its amount and
    [spendingLimit] stays; when it belongs to another user or month (or its
    date is no date), the summary is the one returned before. *)
Theorem post_expense_then_summary
    (c : Http.Controllers) (app : AppModule.t) (uuid : string)
    (body : ExpenseController.body) (userId : string) (month year : number) :
  let e := Expense.new uuid (ExpenseController.amount body)
             (ExpenseController.description body) (ExpenseController.category body)
             (new_Date (ExpenseController.date body)) (ExpenseController.userId body) in
  let app' := (Http.handle c (Http.POST_expenses uuid body) app).2 in
  ∃ before after,
    (Http.handle c (Http.GET_expenses_summary userId month year) app).1
    = Http.Reply 200 (Some (Http.summary_json before))
    ∧ (Http.handle c (Http.GET_expenses_summary userId month year) app').1
      = Http.Reply 200 (Some (Http.summary_json after))
    ∧ spendingLimit after = spendingLimit before
    ∧ (Spec.in_calendar_month userId month year e →
       totalSpent after = (totalSpent before + ExpenseController.amount body)%float)
    ∧ (¬ Spec.in_calendar_month userId month year e → after = before).
Proof.
  intros e app'. unfold app'. rewrite handle_POST_expenses. cbv zeta. fold e. cbn [snd].
  unfold Http.handle, Http.respond, ExpenseController.getSummary.
  rewrite !execute_unfold. cbv zeta.
  cbn [AppModule.EXPENSE_REPOSITORY AppModule.SPENDING_LIMIT_REPOSITORY
       InMemoryExpenseRepository.expenses].
  rewrite filter_push.
  destruct (InMemoryExpenseRepository.in_month userId month year e) eqn:E.
  - change (?l ++ [e]) with (Array.push e l).
    unfold GetSpendingSummaryUseCase.total. rewrite reduce_push.
    destruct (Array.find _ _); eexists _, _; (split; [reflexivity|]);
      (split; [reflexivity|]); cbn; (split; [reflexivity|]);
      (split; [reflexivity|]); intros H; exfalso; apply H; by apply in_month_spec.
  - rewrite app_nil_r.
    destruct (Array.find _ _); eexists _, _; (split; [reflexivity|]);
      (split; [reflexivity|]); cbn; (split; [reflexivity|]);
      (split; [|reflexivity]); intros H; apply in_month_spec in H; congruence.
Qed.

(** X17. The read handlers only read: any sequence of calls of
    [getMonthly] and [getSummary] (the GET queries that reach the handlers)
    resolves, leaves the application in the state it was in, and answers each
    call with what that call resolves with when made alone. *)
Theorem reads_change_nothing (calls : list Reads.Call) (app : AppModule.t) :
  ∃ answers,
    Reads.run calls app = (inr answers, app)
    ∧ Forall2 (λ c answer, Reads.call c app = (inr answer, app)) calls answers.
Proof.
  assert (∀ c, ∃ answer, Reads.call c app = (inr answer, app)) as Hcall.
  { intros [u m y|u m y]; unfold Reads.call, mbind, Async_bind, await.
    - unfold ExpenseController.getMonthly. rewrite getMonthly_effect. by eexists.
    - unfold ExpenseController.getSummary. rewrite execute_unfold. cbv zeta.
      destruct (Array.find _ _); by eexists. }
  induction calls as [|c calls (answers & Hrun & Hall)].
  - exists []. by split; [|constructor].
  - destruct (Hcall c) as (answer & Hc). exists (answer :: answers). split.
    + cbn [Reads.run]. unfold mbind, Async_bind, await. by rewrite Hc, Hrun.
    + by constructor.
Qed.

(** X18. POST /spending-limits, then the summary, with the controller that
    is given the [SPENDING_LIMIT_REPOSITORY] provider: when no limit was
    stored for the key (and the key's month and year are numbers equal to
    themselves), the POST answers 201 with the new limit, and the summary for
    the key then reports that limit against the unchanged total. *)
Theorem post_limit_then_summary
    (app : AppModule.t) (uuid userId : string) (month year monthlyLimit : number) :
  Spec.same_number month month →
  Spec.same_number year year →
  resolved (InMemorySpendingLimitRepository.findByUserAndMonth userId month year
              (AppModule.SPENDING_LIMIT_REPOSITORY app)) = Some None →
  let post := Http.POST_spending_limits uuid
                (SpendingLimit.OmitId userId monthlyLimit month year) in
  let app' := (Http.handle Http.limits_by_token post app).2 in
  ∃ before after,
    (Http.handle Http.limits_by_token post app).1
    = Http.Reply 201
        (Some (Http.limit_json (SpendingLimit.new uuid userId monthlyLimit month year)))
    ∧ GetSpendingSummaryUseCase.execute userId month year app = (inr before, app)
    ∧ spendingLimit before = None
    ∧ GetSpendingSummaryUseCase.execute userId month year app' = (inr after, app')
    ∧ totalSpent after = totalSpent before
    ∧ spendingLimit after = Some monthlyLimit
    ∧ remainingBudget after = Some (monthlyLimit - totalSpent before)%float
    ∧ percentageUsed after = Some (totalSpent before / monthlyLimit * 100)%float.
Proof.
  intros Hm Hy Hnone post app'.
  rewrite lookup_effect, resolved_inr in Hnone. injection Hnone as Hnone.
  assert (Http.handle Http.limits_by_token post app
          = (Http.Reply 201
               (Some (Http.limit_json (SpendingLimit.new uuid userId monthlyLimit month year))),
             AppModule.Build (AppModule.EXPENSE_REPOSITORY app)
               (InMemorySpendingLimitRepository.Build
                  (Array.push (SpendingLimit.new uuid userId monthlyLimit month year)
                     (InMemorySpendingLimitRepository.limits
                        (AppModule.SPENDING_LIMIT_REPOSITORY app))))
               (AppModule.InMemorySpendingLimitRepository_class app))) as Hpost
    by (by destruct app as [es [ls] lc]).
  unfold app'. rewrite Hpost. cbn [fst snd]. rewrite !execute_unfold. cbv zeta.
  cbn [AppModule.EXPENSE_REPOSITORY AppModule.SPENDING_LIMIT_REPOSITORY
       InMemorySpendingLimitRepository.limits].
  rewrite Hnone, (find_push_absent _ _ _ Hnone).
  assert (InMemorySpendingLimitRepository.for_key userId month year
            (SpendingLimit.new uuid userId monthlyLimit month year) = true) as ->
    by (by apply for_key_spec).
  eexists _, _. split_and!; reflexivity.
Qed.

Lemma post_limit_then_summary_witness :
  let app := Http.serve Http.limits_by_token Scenario.expense_requests AppModule.init in
  let post := Http.POST_spending_limits "limit-1"
                (SpendingLimit.OmitId Scenario.user 1000 1 2025) in
  Spec.same_number 1 1 ∧ Spec.same_number 2025 2025
  ∧ resolved (InMemorySpendingLimitRepository.findByUserAndMonth Scenario.user 1 2025
                (AppModule.SPENDING_LIMIT_REPOSITORY app)) = Some None
  ∧ ∃ after,
      GetSpendingSummaryUseCase.execute Scenario.user 1 2025
        (Http.handle Http.limits_by_token post app).2
      = (inr after, (Http.handle Http.limits_by_token post app).2)
      ∧ spendingLimit after = Some 1000%float.
Proof.
  intros app post. split; [reflexivity|]. split; [reflexivity|]. split; [reflexivity|].
  destruct (post_limit_then_summary app "limit-1" Scenario.user 1 2025 1000
              eq_refl eq_refl eq_refl) as (before & after & _ & _ & _ & Hrun & _ & Hl & _).
  exists after. split; [exact Hrun | exact Hl].
Defined.

(** X19. An expense posted with a date string that is no date is accepted
    with 201 and stored ([findAll] of its user lists it), yet no monthly list
    and no summary, for any user, month and year, ever shows or counts it. *)
Theorem invalid_date_is_never_counted
    (c : Http.Controllers) (app : AppModule.t) (uuid : string)
    (body : ExpenseController.body) :
  new_Date (ExpenseController.date body) = Invalid_Date →
  let e := Expense.new uuid (ExpenseController.amount body)
             (ExpenseController.description body) (ExpenseController.category body)
             Invalid_Date (ExpenseController.userId body) in
  let app' := (Http.handle c (Http.POST_expenses uuid body) app).2 in
  (Http.handle c (Http.POST_expenses uuid body) app).1
  = Http.Reply 201 (Some (Http.expense_json e))
  ∧ (∃ all,
       resolved (InMemoryExpenseRepository.findAll (ExpenseController.userId body)
                   (AppModule.EXPENSE_REPOSITORY app')) = Some all
       ∧ e ∈ all)
  ∧ ∀ userId month year,
      (Http.handle c (Http.GET_expenses userId month year) app').1
      = (Http.handle c (Http.GET_expenses userId month year) app).1
      ∧ (Http.handle c (Http.GET_expenses_summary userId month year) app').1
        = (Http.handle c (Http.GET_expenses_summary userId month year) app).1.
Proof.
  intros Hdate e app'. unfold app'. rewrite handle_POST_expenses. cbv zeta.
  rewrite Hdate. fold e. cbn [fst snd].
  assert (∀ userId month year,
            InMemoryExpenseRepository.in_month userId month year e = false) as Hout.
  { intros userId month year.
    destruct (InMemoryExpenseRepository.in_month userId month year e) eqn:E; [|done].
    apply in_month_spec in E as (_ & y & m & d & Hd & _). discriminate Hd. }
  split_and!.
  - reflexivity.
  - eexists. rewrite findAll_effect, resolved_inr. split; [reflexivity|].
    cbn [AppModule.EXPENSE_REPOSITORY InMemoryExpenseRepository.expenses].
    rewrite filter_push. apply elem_of_app. right. cbn. rewrite String.eqb_refl. left.
  - intros userId month year. rewrite !handle_GET_expenses.
    unfold Http.handle, Http.respond, ExpenseController.getSummary.
    rewrite !execute_unfold. cbv zeta.
    cbn [fst AppModule.EXPENSE_REPOSITORY AppModule.SPENDING_LIMIT_REPOSITORY
         InMemoryExpenseRepository.expenses].
    rewrite filter_push, Hout, app_nil_r. split; [reflexivity|].
    by destruct (Array.find _ _).
Qed.

Lemma invalid_date_is_never_counted_witness :
  let body := ExpenseController.Body 80 "Dinner" "Food" (ISO Invalid_Date) Scenario.user in
  let app := Scenario.app Http.limits_by_token in
  new_Date (ExpenseController.date body) = Invalid_Date
  ∧ (Http.handle Http.limits_by_token Scenario.summary_request
       (Http.handle Http.limits_by_token (Http.POST_expenses "expense-d" body) app).2).1
    = (Http.handle Http.limits_by_token Scenario.summary_request app).1.
Proof.
  intros body app. split; [reflexivity|].
  destruct (invalid_date_is_never_counted Http.limits_by_token app "expense-d" body eq_refl)
    as (_ & _ & H).
  exact (proj2 (H Scenario.user 1%float 2025%float)).
Defined.

(** ** Numbers at the edges *)

Section EdgeNumbers.
Local Open Scope float_scope.

Lemma isNaN_spec (x : number) : Number.isNaN x = true → Prim2SF x = S754_nan.
Proof.
  unfold Number.isNaN, PrimFloat.is_nan. rewrite FloatAxioms.eqb_spec.
  unfold SFeqb, SFcompare.
  destruct (Prim2SF x) as [s|s| |s m e]; try done; try by destruct s.
  rewrite Z.compare_refl, Pos.compare_cont_refl. by destruct s.
Qed.

(** [NaN] is equal to no number, on either side of [===]. *)
Lemma strict_eq_of_NaN (x y : number) :
  Number.isNaN x = true → Number.strict_eq x y = false.
Proof.
  intros H%isNaN_spec. unfold Number.strict_eq. by rewrite FloatAxioms.eqb_spec, H.
Qed.

Lemma sub_zero (x : number) : x - 0 = x.
Proof.
  apply Prim2SF_inj. rewrite sub_spec.
  change (Prim2SF 0) with (S754_zero false).
  by destruct (Prim2SF x) as [[|]| | |].
Qed.

(** Nothing spent is 0 percent of any limit that is a number other than 0. *)
Lemma zero_percent (l : number) :
  Number.isNaN l = false → Number.strict_eq l 0 = false →
  Number.strict_eq (0 / l * 100) 0 = true.
Proof.
  unfold Number.isNaN, PrimFloat.is_nan, Number.strict_eq.
  rewrite !(FloatAxioms.eqb_spec l). intros Hnan Hzero.
  assert (∃ s, Prim2SF (0 / l) = S754_zero s) as [s Hs].
  { rewrite div_spec. change (Prim2SF 0) with (S754_zero false).
    destruct (Prim2SF l) as [s|s| |s m e]; try done; by eexists. }
  apply float_of_spec in Hs. rewrite Hs. by destruct s.
Qed.
End EdgeNumbers.

Lemma limit_create_effect (uuid : string) (data : SpendingLimit.omit_id)
    (s : InMemorySpendingLimitRepository.t) :
  InMemorySpendingLimitRepository.create uuid data s
  = let l := SpendingLimit.new uuid (SpendingLimit.o_userId data)
               (SpendingLimit.o_monthlyLimit data) (SpendingLimit.o_month data)
               (SpendingLimit.o_year data) in
    (inr l, InMemorySpendingLimitRepository.Build
              (Array.push l (InMemorySpendingLimitRepository.limits s))).
Proof. reflexivity. Qed.

(** X20. A limit whose [month] or [year] is [NaN] is stored by [create]
    like any other, but is never found: afterwards every lookup, for any
    user, month and year, resolves as it did before, and never with that
    limit, because [===] holds for no [NaN]. *)
Theorem limit_with_NaN_key_is_never_found
    (s : InMemorySpendingLimitRepository.t) (uuid owner : string)
    (monthlyLimit m y : number) (userId : string) (month year : number) :
  Number.isNaN m = true ∨ Number.isNaN y = true →
  let l := SpendingLimit.new uuid owner monthlyLimit m y in
  ∃ s',
    InMemorySpendingLimitRepository.create uuid
      (SpendingLimit.OmitId owner monthlyLimit m y) s = (inr l, s')
    ∧ l ∈ InMemorySpendingLimitRepository.limits s'
    ∧ resolved (InMemorySpendingLimitRepository.findByUserAndMonth userId month year s')
      = resolved (InMemorySpendingLimitRepository.findByUserAndMonth userId month year s)
    ∧ resolved (InMemorySpendingLimitRepository.findByUserAndMonth userId month year s')
      ≠ Some (Some l).
Proof.
  intros Hnan l.
  assert (InMemorySpendingLimitRepository.for_key userId month year l = false) as Hkey.
  { unfold InMemorySpendingLimitRepository.for_key. cbn.
    destruct Hnan as [H|H]; rewrite (strict_eq_of_NaN _ _ H);
      [by rewrite andb_false_r | by rewrite andb_false_r]. }
  eexists. split; [apply limit_create_effect|]. cbv zeta. cbn [SpendingLimit.o_userId
    SpendingLimit.o_monthlyLimit SpendingLimit.o_month SpendingLimit.o_year]. fold l.
  rewrite !lookup_effect, !resolved_inr. cbn [InMemorySpendingLimitRepository.limits].
  split_and!.
  - apply elem_of_app. right. left.
  - f_equal.
    destruct (Array.find (InMemorySpendingLimitRepository.for_key userId month year)
                (InMemorySpendingLimitRepository.limits s)) as [x|] eqn:E.
    + by apply find_push_found.
    + rewrite find_push_absent by done. by rewrite Hkey.
  - intros [= (b & a & _ & Hk & _)%find_first]. congruence.
Qed.

Lemma limit_with_NaN_key_is_never_found_witness :
  let l := SpendingLimit.new "limit-n" Scenario.user 1000 nan 2025 in
  (Number.isNaN nan = true ∨ Number.isNaN 2025 = true)
  ∧ ∃ s',
      InMemorySpendingLimitRepository.create "limit-n"
        (SpendingLimit.OmitId Scenario.user 1000 nan 2025) InMemorySpendingLimitRepository.new
      = (inr l, s')
      ∧ resolved (InMemorySpendingLimitRepository.findByUserAndMonth Scenario.user nan 2025 s')
        ≠ Some (Some l).
Proof.
  intros l.
  assert (Number.isNaN nan = true ∨ Number.isNaN 2025 = true) as H by (left; reflexivity).
  split; [exact H|].
  destruct (limit_with_NaN_key_is_never_found InMemorySpendingLimitRepository.new
              "limit-n" Scenario.user 1000 nan 2025 Scenario.user nan 2025 H)
    as (s' & Hc & _ & _ & Hne).
  exists s'. split; [exact Hc | exact Hne].
Defined.

(** X21. A month without expenses: with a limit stored for the key,
    [totalSpent] is 0 and [remainingBudget] is the limit itself; when the
    limit is a number other than 0, [percentageUsed] is 0. *)
Theorem summary_of_empty_month
    (app : AppModule.t) (userId : string) (month year : number) (limit : SpendingLimit) :
  resolved (InMemoryExpenseRepository.findByMonth userId month year
              (AppModule.EXPENSE_REPOSITORY app)) = Some [] →
  resolved (InMemorySpendingLimitRepository.findByUserAndMonth userId month year
              (AppModule.SPENDING_LIMIT_REPOSITORY app)) = Some (Some limit) →
  ∃ summary,
    GetSpendingSummaryUseCase.execute userId month year app = (inr summary, app)
    ∧ totalSpent summary = 0%float
    ∧ spendingLimit summary = Some (SpendingLimit.monthlyLimit limit)
    ∧ remainingBudget summary = Some (SpendingLimit.monthlyLimit limit)
    ∧ (Number.isNaN (SpendingLimit.monthlyLimit limit) = false →
       Number.strict_eq (SpendingLimit.monthlyLimit limit) 0 = false →
       ∃ p, percentageUsed summary = Some p ∧ Spec.same_number p 0).
Proof.
  intros He%findByMonth_resolves Hl%findByUserAndMonth_resolves.
  rewrite execute_unfold. cbv zeta. rewrite <- Hl, <- He.
  eexists. split; [reflexivity|]. cbn. split_and!; try reflexivity.
  - by rewrite sub_zero.
  - intros Hnan Hzero. eexists. split; [reflexivity|]. by apply zero_percent.
Qed.

Lemma summary_of_empty_month_witness :
  resolved (InMemoryExpenseRepository.findByMonth Scenario.user 1 2025
              (AppModule.EXPENSE_REPOSITORY
                 (Http.serve Http.limits_by_token [Scenario.limit_request] AppModule.init)))
  = Some []
  ∧ ∃ summary,
      GetSpendingSummaryUseCase.execute Scenario.user 1 2025
        (Http.serve Http.limits_by_token [Scenario.limit_request] AppModule.init)
      = (inr summary,
         Http.serve Http.limits_by_token [Scenario.limit_request] AppModule.init)
      ∧ totalSpent summary = 0%float
      ∧ remainingBudget summary = Some 1000%float.
Proof.
  split; [reflexivity|].
  destruct (summary_of_empty_month
              (Http.serve Http.limits_by_token [Scenario.limit_request] AppModule.init)
              Scenario.user 1 2025 Scenario.limit eq_refl eq_refl)
    as (summary & Hrun & Ht & _ & Hr & _).
  exists summary. split; [exact Hrun|]. split; [exact Ht | exact Hr].
Defined.

(** ** The expense store: update after delete or create *)

(** X22. [update] right after the other writes: once [delete(id)] has run,
    [update(id, partial)] rejects with [Error('Expense not found')] and
    changes nothing; once [create] has returned an expense, [update] of its
    id resolves, whatever the partial. *)
Theorem update_after_delete_or_create
    (s : InMemoryExpenseRepository.t) (id : string) (partial : Expense.partial)
    (x : Expense.omit_id) :
  (let s' := state_after (InMemoryExpenseRepository.delete id s) in
   InMemoryExpenseRepository.update id partial s' = (inl (Error "Expense not found"), s'))
  ∧ (let s' := state_after (InMemoryExpenseRepository.create id x s) in
     ∃ updated s'',
       InMemoryExpenseRepository.update id partial s' = (inr updated, s'')
       ∧ Expense.id updated = id).
Proof.
  split; intros s'.
  - apply update_absent. intros e He. unfold s' in He.
    rewrite delete_effect in He. cbn in He.
    apply filter_elem in He as [_ He]. by apply negb_true_iff, String.eqb_neq in He.
  - destruct (update_decomposed s' id partial) as (b & c & a & _ & _ & _ & Hrun).
    + exists (Expense.new id (Expense.o_amount x) (Expense.o_description x)
                (Expense.o_category x) (Expense.o_date x) (Expense.o_userId x)).
      split; [|reflexivity]. unfold s'. rewrite create_state.
      apply elem_of_app. right. left.
    + cbv zeta in Hrun. eexists _, _. split; [exact Hrun|]. reflexivity.
Qed.

(** ** End to end, as wired in [AppModule] *)

(** Posting expenses one after the other appends them to the expense store
    and touches nothing else. *)
Lemma serve_POST_expenses (c : Http.Controllers)
    (posts : list (string * ExpenseController.body)) (app : AppModule.t) :
  Http.serve c (map (λ p, Http.POST_expenses p.1 p.2) posts) app
  = AppModule.Build
      (InMemoryExpenseRepository.Build
         (InMemoryExpenseRepository.expenses (AppModule.EXPENSE_REPOSITORY app)
          ++ map (λ p, Expense.new p.1 (ExpenseController.amount p.2)
                         (ExpenseController.description p.2)
                         (ExpenseController.category p.2)
                         (new_Date (ExpenseController.date p.2))
                         (ExpenseController.userId p.2)) posts))
      (AppModule.SPENDING_LIMIT_REPOSITORY app)
      (AppModule.InMemorySpendingLimitRepository_class app).
Proof.
  revert app. induction posts as [|[uuid body] posts IH]; intros app.
  - destruct app as [[es] ls lc]. cbn. by rewrite app_nil_r.
  - cbn [map fst snd].
    change (Http.serve c (Http.POST_expenses uuid body :: ?reqs) app)
      with (Http.serve c reqs (Http.handle c (Http.POST_expenses uuid body) app).2).
    rewrite handle_POST_expenses. cbv zeta. cbn [snd]. rewrite IH.
    cbn [AppModule.EXPENSE_REPOSITORY AppModule.SPENDING_LIMIT_REPOSITORY
         AppModule.InMemorySpendingLimitRepository_class
         InMemoryExpenseRepository.expenses].
    unfold Array.push. by rewrite <- app_assoc.
Qed.

(** C3. End to end through the HTTP layer as [AppModule] wires it
    ([SpendingLimitController] given the [SPENDING_LIMIT_REPOSITORY]
    provider): from a fresh application, after POST /spending-limits with a
    limit of 1000 for (user-123, 1, 2025) and POST /expenses for any expenses
    of user-123 dated in January 2025 whose amounts total 600,
    GET /expenses/summary for (user-123, 1, 2025) answers 200 with
    [{totalSpent: 600, spendingLimit: 1000, remainingBudget: 400,
    percentageUsed: 60}]. *)
Theorem e2e_summary_as_wired
    (limit_uuid : string) (posts : list (string * ExpenseController.body)) :
  Forall (λ p, ExpenseController.userId p.2 = "user-123"
               ∧ ∃ day, new_Date (ExpenseController.date p.2) = Local_Date 2025 January day)
    posts →
  Spec.sum_backwards (rev (map (λ p, ExpenseController.amount p.2) posts)) = 600%float →
  (Http.handle Http.limits_by_token (Http.GET_expenses_summary "user-123" 1 2025)
     (Http.serve Http.limits_by_token
        (Http.POST_spending_limits limit_uuid (SpendingLimit.OmitId "user-123" 1000 1 2025)
         :: map (λ p, Http.POST_expenses p.1 p.2) posts)
        AppModule.init)).1
  = Http.Reply 200
      (Some (Http.summary_json (Summary 600 (Some 1000) (Some 400) (Some 60))))%float.
Proof.
  intros Hposts Hsum.
  change (Http.serve Http.limits_by_token (?post :: ?reqs) AppModule.init)
    with (Http.serve Http.limits_by_token reqs
            (Http.handle Http.limits_by_token post AppModule.init).2).
  rewrite serve_POST_expenses.
  unfold Http.handle at 1, Http.respond, ExpenseController.getSummary.
  rewrite execute_unfold. cbv zeta.
  cbn [AppModule.EXPENSE_REPOSITORY AppModule.SPENDING_LIMIT_REPOSITORY
       InMemoryExpenseRepository.expenses].
  set (expenses := map _ posts).
  change (Array.find _ _) with (Some (SpendingLimit.new limit_uuid "user-123" 1000 1 2025)).
  change (InMemoryExpenseRepository.expenses _ ++ expenses) with expenses.
  rewrite filter_all, total_is_sum.
  - assert (Spec.sum_of_amounts expenses = 600%float) as ->; [|reflexivity].
    unfold Spec.sum_of_amounts, expenses. rewrite map_map. exact Hsum.
  - intros e He. apply in_month_spec. unfold expenses in He.
    apply list_elem_of_In, in_map_iff in He as ([uuid body] & <- & Hin).
    apply list_elem_of_In in Hin.
    destruct (proj1 (Forall_forall _ _) Hposts _ Hin) as (Hu & day & Hd).
    cbn in *. split; [exact Hu|]. exists 2025%Z, January, day. by rewrite Hd.
Qed.

Lemma e2e_summary_as_wired_witness :
  let posts :=
    [ ("expense-a", ExpenseController.Body 300 "Expense A" "Food"
                      (ISO (Local_Date 2025 January 10)) "user-123");
      ("expense-b", ExpenseController.Body 300 "Expense B" "Transport"
                      (ISO (Local_Date 2025 January 15)) "user-123") ] in
  Forall (λ p, ExpenseController.userId p.2 = "user-123"
               ∧ ∃ day, new_Date (ExpenseController.date p.2) = Local_Date 2025 January day)
    posts
  ∧ Spec.sum_backwards (rev (map (λ p, ExpenseController.amount p.2) posts)) = 600%float
  ∧ (Http.handle Http.limits_by_token Scenario.summary_request
       (Http.serve Http.limits_by_token
          (Scenario.limit_request :: Scenario.expense_requests) AppModule.init)).1
    = Http.Reply 200
        (Some (Http.summary_json (Summary 600 (Some 1000) (Some 400) (Some 60))))%float.
Proof.
  intros posts.
  assert (Forall (λ p, ExpenseController.userId p.2 = "user-123"
                       ∧ ∃ day, new_Date (ExpenseController.date p.2)
                                = Local_Date 2025 January day) posts) as H.
  { repeat constructor; by eexists. }
  split; [exact H|]. split; [reflexivity|].
  exact (e2e_summary_as_wired "limit-1" posts H eq_refl).
Defined.
